(** * SIPN: the identity bank and the train / inference mode controller

    A shallow embedding of [models/model.py] (class [SIPN]) over the real
    numbers.  Tensors are lists of reals, the registered buffers [lut] and
    [queue] are explicit state, Python exceptions are an error result, and
    the calls made to collaborators are recorded in a log. *)

From Stdlib Require Import Reals Lra Lia String.
From stdpp Require Import base list gmap strings.

Local Open Scope R_scope.
Local Open Scope string_scope.

(** ** Tensors *)

Abbreviation Vec := (list R) (only parsing).
Abbreviation Mat := (list (list R)) (only parsing).
Abbreviation Tensor3 := (list (list (list R))) (only parsing).
Abbreviation Tensor4 := (list (list (list (list R)))) (only parsing).

Definition rsum (v : Vec) : R := foldr Rplus 0 v.

Definition vscale (a : R) (v : Vec) : Vec := map (Rmult a) v.
Definition vadd (u v : Vec) : Vec := zip_with Rplus u v.
Definition vsub (u v : Vec) : Vec := zip_with Rminus u v.
Definition vmul (u v : Vec) : Vec := zip_with Rmult u v.
Definition dot (u v : Vec) : R := rsum (vmul u v).

Definition sumsq (v : Vec) : R := rsum (map (fun x => x * x) v).

(** [Tensor.norm()], the L2 norm. *)
Definition norm (v : Vec) : R := sqrt (sumsq v).

(** The default [eps] of [torch.nn.functional.normalize]. *)
Definition eps : R := / 10 ^ 12.

(** [func.normalize(x)] on one row: [x / max(||x||_2, eps)]. *)
Definition normalize (v : Vec) : Vec :=
  map (fun x => x / Rmax (norm v) eps) v.

(** [func.normalize] on a [B x D] tensor works along [dim=1], row by row. *)
Definition normalize_rows (m : Mat) : Mat := map normalize m.

Definition zeros (n : nat) : Vec := replicate n 0.

(** A row is stable under normalization when it has norm one or zero. *)
Definition unit_or_null (v : Vec) : Prop := norm v = 1 \/ norm v = 0.

(** ** Errors *)

Inductive Error : Type :=
| KeyError (key : string)
| IOError (path : string)
| IndexError (i : nat)
| ShapeError.

Inductive Result (A : Type) : Type :=
| Ok (a : A)
| Raise (e : Error).
Arguments Ok {A} a.
Arguments Raise {A} e.

(** ** The identity bank *)

(** A per-region identity label, as the data model of the specification
    has it. *)
Inductive Label : Type :=
| Background
| Known (i : nat)
| Unlabeled.

(** Modelled from the spec: the write cursor of the ring buffer.  [lut] and
    [queue] are the two buffers that [SIPN.__init__] registers; the cursor is
    the state that the bank update of [utils/losses.py] keeps for the queue. *)
Record Bank : Type := mkBank {
  lut : list Vec;
  queue : list Vec;
  cursor : nat
}.

Definition num_identities (b : Bank) : nat := length (lut b).
Definition bank_queue_size (b : Bank) : nat := length (queue b).

(** The vector that a known-identity sample blends into its row. *)
Definition blend (momentum : R) (row e : Vec) : Vec :=
  vadd (vscale momentum row) (vscale (1 - momentum) e).

(** Modelled from the spec: [update] of the identity bank, which lives in
    [utils/losses.py] ([oim_loss]), for one sample.  A known identity
    blends the embedding into its row and renormalizes, an unlabeled person
    is written at the cursor, which then advances modulo the queue size, a
    background sample changes nothing.  An identity id out of range and an
    embedding of the wrong dimension are fatal. *)
Definition update_one (momentum : R) (b : Bank) (s : Vec * Label)
  : Result Bank :=
  let (e, label) := s in
  match label with
  | Background => Ok b
  | Known i =>
      match lut b !! i with
      | None => Raise (IndexError i)
      | Some row =>
          if Nat.eqb (length e) (length row)
          then Ok (mkBank (<[i := normalize (blend momentum row e)]> (lut b))
                          (queue b) (cursor b))
          else Raise ShapeError
      end
  | Unlabeled =>
      match queue b !! cursor b with
      | None => Raise (IndexError (cursor b))
      | Some slot =>
          if Nat.eqb (length e) (length slot)
          then Ok (mkBank (lut b) (<[cursor b := e]> (queue b))
                          ((cursor b + 1) mod bank_queue_size b))
          else Raise ShapeError
      end
  end.

(** Modelled from the spec: [update] on a batch, in index order.  The
    buffers are mutated in place, so what the samples before a fatal one
    wrote stays written. *)
Fixpoint update (momentum : R) (b : Bank) (batch : list (Vec * Label))
  : Bank * option Error :=
  match batch with
  | [] => (b, None)
  | s :: rest =>
      match update_one momentum b s with
      | Ok b' => update momentum b' rest
      | Raise err => (b, Some err)
      end
  end.

(** Modelled from the spec: [similarity_logits], the inner products of
    every embedding with every [lut] row followed by every [queue] row. *)
Definition similarity_logits (b : Bank) (embeddings : Mat) : Mat :=
  map (fun e => map (dot e) (lut b ++ queue b)) embeddings.

(** Repeated [update] calls, one per batch, until one of them fails. *)
Fixpoint updates (momentum : R) (b : Bank) (batches : list (list (Vec * Label)))
  : Bank * option Error :=
  match batches with
  | [] => (b, None)
  | batch :: rest =>
      match update momentum b batch with
      | (b', None) => updates momentum b' rest
      | (b', Some err) => (b', Some err)
      end
  end.

(** A batch of unlabeled-person samples. *)
Definition unlabeled (es : list Vec) : list (Vec * Label) :=
  map (fun e => (e, Unlabeled)) es.

Definition is_unlabeled (s : Vec * Label) : bool :=
  match s.2 with Unlabeled => true | _ => false end.

Definition is_background (s : Vec * Label) : bool :=
  match s.2 with Background => true | _ => false end.

(** The queue holds rows of dimension [D] and the cursor points into it. *)
Definition queue_wf (D : nat) (b : Bank) : Prop :=
  Forall (fun row => length row = D) (queue b) /\
  (cursor b < length (queue b))%nat.

(** A known-identity sample is in range when its row exists and has the
    length of the embedding; the other labels ask for nothing. *)
Definition known_in_range (b : Bank) (s : Vec * Label) : Prop :=
  match s.2 with
  | Known i => exists row, lut b !! i = Some row /\ length s.1 = length row
  | _ => True
  end.

(** ** Linear heads and tensor reshaping *)

(** [nn.Linear]: a weight row and a bias per output unit. *)
Record Linear : Type := mkLinear {
  weight : Mat;
  bias : Vec
}.

Definition linear_row (l : Linear) (x : Vec) : Vec :=
  vadd (map (dot x) (weight l)) (bias l).

Definition linear (l : Linear) (m : Mat) : Mat := map (linear_row l) m.

(** [func.softmax(x, 1)]. *)
Definition softmax_row (v : Vec) : Vec :=
  map (fun x => exp x / rsum (map exp v)) v.
Definition softmax (m : Mat) : Mat := map softmax_row m.

Definition mean (v : Vec) : R := rsum v / INR (length v).

(** [t.mean(3).mean(2)] on a [B x C x H x W] tensor. *)
Definition mean_3_2 (t : Tensor4) : Mat :=
  map (map (fun plane : Mat => mean (map mean plane))) t.

(** [t.view(t.size(0), -1)]. *)
Definition view_flat (t : Tensor4) : Mat :=
  map (fun sample : Tensor3 => concat (concat sample)) t.

(** [t.view(-1, 2)]: the entries in row-major order, two per row. *)
Fixpoint pairs (v : Vec) : Mat :=
  match v with
  | x :: y :: rest => [x; y] :: pairs rest
  | _ => []
  end.
Definition view_pairs (m : Mat) : Mat := pairs (concat m).

(** [row.unsqueeze(0).expand_as(m)]: one copy of [row] per row of [m];
    the widths must agree.  A matrix with no row carries no width here, so
    the check says nothing for it. *)
Definition expand_as (row : Vec) (m : Mat) : Result Mat :=
  if forallb (fun r => Nat.eqb (length r) (length row)) m
  then Ok (map (fun _ => row) m)
  else Raise ShapeError.

(** ** State, errors and the call log *)

(** The parsed content of [config.yml]: a dictionary of number lists. *)
Abbreviation Config := (list (string * list R)) (only parsing).

(** What a call of [forward] can read or change: the two buffers of the
    model, the configuration file ([None] when it is missing or unreadable)
    and the log of submodule calls and file reads made so far. *)
Record World : Type := mkWorld {
  bank : Bank;
  config_yml : option Config;
  log : list string
}.

Definition M (A : Type) : Type := World -> Result A * World.

Definition ret {A} (a : A) : M A := fun w => (Ok a, w).

Definition bind {A B} (c : M A) (k : A -> M B) : M B :=
  fun w =>
    match c w with
    | (Ok a, w') => k a w'
    | (Raise e, w') => (Raise e, w')
    end.

Definition raise {A} (e : Error) : M A := fun w => (Raise e, w).

Notation "'do' x <- c ; k" := (bind c (fun x => k))
  (at level 10, x pattern, c at level 100, k at level 200, only parsing).

(** A call of the submodule [name] that returns [v]. *)
Definition call {A} (name : string) (v : A) : M A :=
  fun w => (Ok v, mkWorld (bank w) (config_yml w) (log w ++ [name])).

(** [with open('config.yml', 'r') as f: config = yaml.load(f)]. *)
Definition open_config : M Config :=
  fun w =>
    let w' := mkWorld (bank w) (config_yml w) (log w ++ ["open config.yml"]) in
    match config_yml w with
    | Some c => (Ok c, w')
    | None => (Raise (IOError "config.yml"), w')
    end.

Fixpoint assoc (key : string) (c : Config) : option Vec :=
  match c with
  | [] => None
  | (k, v) :: rest => if String.eqb k key then Some v else assoc key rest
  end.

(** [config[key]]. *)
Definition getitem {A} (c : Config) (key : string) (k : Vec -> M A) : M A :=
  match assoc key c with
  | Some v => k v
  | None => raise (KeyError key)
  end.

Definition lift {A} (r : Result A) : M A := fun w => (r, w).

(** ** Collaborators *)

(** The backbone: [self.head] and [self.tail].  The tail of the VGG
    backbone takes the flattened pooled feature, the tails of the others
    take the spatial one. *)
Class Backbone : Type := {
  head : Tensor4 -> Tensor4;
  tail_fc : Mat -> Mat;
  tail_conv : Tensor4 -> Tensor4
}.

(** The proposal subsystem [self.strpn], in its three call shapes. *)
Class Proposal : Type := {
  BboxInfo : Type;
  strpn_train : Tensor4 -> Mat -> Vec ->
    Tensor4 * Tensor4 * (R * R) * (list (list nat) * list Label) * BboxInfo;
  strpn_gallery : Tensor4 -> Mat -> Vec -> Mat * Tensor4 * Tensor4;
  strpn_query : Tensor4 -> Mat -> Vec -> string -> Tensor4
}.

(** The scalar losses: [func.cross_entropy], [smooth_l1_loss] and the
    softmax cross-entropy that the identity loss takes over the similarity
    logits, the labels and the number of ground-truth boxes. *)
Class Losses `{Proposal} : Type := {
  cross_entropy : Mat -> list nat -> R;
  smooth_l1_loss : Mat -> BboxInfo -> R;
  identity_cross_entropy : Mat -> list Label -> nat -> R
}.

(** ** The model *)

(** The attributes that [SIPN.__init__] sets; the buffers [lut] and
    [queue] are in the [World]. *)
Record SIPN : Type := mkSIPN {
  net_name : string;
  is_train : bool;
  num_pid : nat;
  queue_size : nat;
  lut_momentum : R;
  reid_feat_dim : nat;
  cls_score_net : Linear;
  bbox_pred_net : Linear;
  reid_feat_net : Linear
}.

(** What [forward] returns: five losses when training, four arrays for a
    gallery image, the embedding for a query. *)
Inductive Output : Type :=
| TrainOut (rpn_cls_loss rpn_box_loss cls_loss bbox_loss reid_loss : R)
| GalleryOut (cls_prob bbox_pred rois reid_feat : Mat)
| QueryOut (reid_feat : Mat).

(** The sizes that [__init__] takes from the dataset name. *)
Definition dataset_sizes (dataset_name : string) : Result (nat * nat) :=
  if String.eqb dataset_name "sysu" then Ok (Z.to_nat 5532, Z.to_nat 5000)
  else if String.eqb dataset_name "prw" then Ok (Z.to_nat 483, Z.to_nat 500)
  else Raise (KeyError dataset_name).

Definition known_net (name : string) : bool :=
  String.eqb name "vgg16" || String.eqb name "res34" ||
  String.eqb name "res50" || String.eqb name "dense121" ||
  String.eqb name "dense161".

(** [normal_init(m, mean, stddev)]: the weights are the values drawn, the
    bias is zeroed. *)
Definition normal_init (drawn : Mat) : Linear :=
  mkLinear drawn (zeros (length drawn)).

(** [SIPN.__init__], given the weights drawn for the three heads: the
    model and its zero-initialized buffers.  The two name checks are the
    failures modelled; the allocation of the buffers and the constructors
    of the backbone and of the proposal subsystem are taken to return. *)
Definition SIPN_init (net dataset_name : string) (train : bool)
  (w_cls w_bbox w_reid : Mat) : Result (SIPN * Bank) :=
  match dataset_sizes dataset_name with
  | Raise e => Raise e
  | Ok (pids, qsize) =>
      if known_net net
      then Ok (mkSIPN net train pids qsize (1 / 2) 256
                 (normal_init w_cls) (normal_init w_bbox) (normal_init w_reid),
               mkBank (replicate pids (zeros 256))
                      (replicate qsize (zeros 256)) 0)
      else Raise (KeyError net)
  end.

Section Forward.

Context `{Backbone} `{Losses}.

(** Modelled from the spec: [oim_loss] of [utils/losses.py].  The loss is
    taken over the similarity logits of the bank as it is on entry, then
    the bank is updated with the batch. *)
Definition oim_loss (reid_feat : Mat) (pid_label : list Label)
  (num_gt : nat) (momentum : R) : M R :=
  fun w =>
    let loss :=
      identity_cross_entropy (similarity_logits (bank w) reid_feat)
        pid_label num_gt in
    let (b', err) := update momentum (bank w) (zip reid_feat pid_label) in
    let w' := mkWorld b' (config_yml w) (log w) in
    match err with
    | None => (Ok loss, w')
    | Some e => (Raise e, w')
    end.

(** The task descriptor: the branch of [forward] on the backbone family. *)
Definition descriptor (self : SIPN) (pooled_feat : Tensor4) : M Mat :=
  if String.eqb (net_name self) "vgg16"
  then call "tail" (tail_fc (view_flat pooled_feat))
  else
    do t <- call "tail" (tail_conv pooled_feat);
    ret (mean_3_2 t).

(** [bbox_pred.mul(stds).add(means)]. *)
Definition mul_add (bbox_pred stds means : Mat) : Mat :=
  zip_with vadd (zip_with vmul bbox_pred stds) means.

(** [SIPN.forward]. *)
Definition forward (self : SIPN) (im_data : Tensor4) (gt_boxes : Mat)
  (im_info : Vec) (mode : string) : M Output :=
  if is_train self then
    do net_conv <- call "head" (head im_data);
    do (pooled_feat, trans_feat, rpn_loss, label, bbox_info) <-
      call "strpn" (strpn_train net_conv gt_boxes im_info);
    do fc7 <- descriptor self pooled_feat;
    do cls_score <- call "cls_score_net" (linear (cls_score_net self) fc7);
    do bbox_pred <- call "bbox_pred_net" (linear (bbox_pred_net self) fc7);
    do reid_raw <- call "reid_feat_net" (linear (reid_feat_net self) fc7);
    let reid_feat := normalize_rows reid_raw in
    let '(det_label, pid_label) := label in
    let det_label := concat det_label in
    let cls_loss := cross_entropy (view_pairs cls_score) det_label in
    let bbox_loss := smooth_l1_loss bbox_pred bbox_info in
    do reid_loss <-
      oim_loss reid_feat pid_label (length gt_boxes) (lut_momentum self);
    let '(rpn_cls_loss, rpn_box_loss) := rpn_loss in
    ret (TrainOut rpn_cls_loss rpn_box_loss cls_loss bbox_loss reid_loss)
  else if String.eqb mode "gallery" then
    do net_conv <- call "head" (head im_data);
    do (rois, pooled_feat, trans_feat) <-
      call "strpn" (strpn_gallery net_conv gt_boxes im_info);
    do fc7 <- descriptor self pooled_feat;
    do cls_score <- call "cls_score_net" (linear (cls_score_net self) fc7);
    do bbox_pred <- call "bbox_pred_net" (linear (bbox_pred_net self) fc7);
    do reid_raw <- call "reid_feat_net" (linear (reid_feat_net self) fc7);
    let reid_feat := normalize_rows reid_raw in
    let cls_prob := softmax cls_score in
    do config <- open_config;
    getitem config "train_bbox_normalize_means" (fun mean =>
    getitem config "train_bbox_normalize_stds" (fun std =>
    do means <- lift (expand_as (mean ++ mean)%list bbox_pred);
    do stds <- lift (expand_as (std ++ std)%list bbox_pred);
    let bbox_pred := mul_add bbox_pred stds means in
    ret (GalleryOut cls_prob bbox_pred rois reid_feat)))
  else if String.eqb mode "query" then
    do net_conv <- call "head" (head im_data);
    do pooled_feat <- call "strpn" (strpn_query net_conv gt_boxes im_info mode);
    do fc7 <- descriptor self pooled_feat;
    do reid_raw <- call "reid_feat_net" (linear (reid_feat_net self) fc7);
    let reid_feat := normalize_rows reid_raw in
    ret (QueryOut reid_feat)
  else raise (KeyError mode).

(** *** What a call computes, written without the monad *)

Definition fc7_of (self : SIPN) (pooled_feat : Tensor4) : Mat :=
  if String.eqb (net_name self) "vgg16"
  then tail_fc (view_flat pooled_feat)
  else mean_3_2 (tail_conv pooled_feat).

(** The pooled feature, the labels and the other targets of a training
    call. *)
Definition train_pooled (im_data : Tensor4) (gt_boxes : Mat) (im_info : Vec)
  : Tensor4 :=
  (strpn_train (head im_data) gt_boxes im_info).1.1.1.1.
Definition train_rpn_loss (im_data : Tensor4) (gt_boxes : Mat) (im_info : Vec)
  : R * R :=
  (strpn_train (head im_data) gt_boxes im_info).1.1.2.
Definition train_det_label (im_data : Tensor4) (gt_boxes : Mat) (im_info : Vec)
  : list (list nat) :=
  (strpn_train (head im_data) gt_boxes im_info).1.2.1.
Definition train_pid_label (im_data : Tensor4) (gt_boxes : Mat) (im_info : Vec)
  : list Label :=
  (strpn_train (head im_data) gt_boxes im_info).1.2.2.
Definition train_bbox_info (im_data : Tensor4) (gt_boxes : Mat) (im_info : Vec)
  : BboxInfo :=
  (strpn_train (head im_data) gt_boxes im_info).2.

(** The output of the identity head in a training call, before it is
    normalized. *)
Definition train_reid_raw (self : SIPN) (im_data : Tensor4) (gt_boxes : Mat)
  (im_info : Vec) : Mat :=
  linear (reid_feat_net self)
    (fc7_of self (train_pooled im_data gt_boxes im_info)).

(** The samples that a training call hands to the bank update. *)
Definition train_samples (self : SIPN) (im_data : Tensor4) (gt_boxes : Mat)
  (im_info : Vec) : list (list R * Label) :=
  zip (normalize_rows (train_reid_raw self im_data gt_boxes im_info))
      (train_pid_label im_data gt_boxes im_info).

(** The five losses of a training call on the bank [b]. *)
Definition train_losses (self : SIPN) (im_data : Tensor4) (gt_boxes : Mat)
  (im_info : Vec) (b : Bank) : Output :=
  let fc7 := fc7_of self (train_pooled im_data gt_boxes im_info) in
  TrainOut
    (train_rpn_loss im_data gt_boxes im_info).1
    (train_rpn_loss im_data gt_boxes im_info).2
    (cross_entropy (view_pairs (linear (cls_score_net self) fc7))
       (concat (train_det_label im_data gt_boxes im_info)))
    (smooth_l1_loss (linear (bbox_pred_net self) fc7)
       (train_bbox_info im_data gt_boxes im_info))
    (identity_cross_entropy
       (similarity_logits b
          (normalize_rows (train_reid_raw self im_data gt_boxes im_info)))
       (train_pid_label im_data gt_boxes im_info) (length gt_boxes)).

Definition train_log : list string :=
  ["head"; "strpn"; "tail"; "cls_score_net"; "bbox_pred_net";
   "reid_feat_net"].

Definition gallery_pooled (im_data : Tensor4) (gt_boxes : Mat) (im_info : Vec)
  : Tensor4 :=
  (strpn_gallery (head im_data) gt_boxes im_info).1.2.
Definition gallery_rois (im_data : Tensor4) (gt_boxes : Mat) (im_info : Vec)
  : Mat :=
  (strpn_gallery (head im_data) gt_boxes im_info).1.1.

(** The output of the box head in a gallery call, before it is
    de-normalized, and that of the identity head, before it is normalized. *)
Definition gallery_bbox_raw (self : SIPN) (im_data : Tensor4) (gt_boxes : Mat)
  (im_info : Vec) : Mat :=
  linear (bbox_pred_net self)
    (fc7_of self (gallery_pooled im_data gt_boxes im_info)).
Definition gallery_reid_raw (self : SIPN) (im_data : Tensor4) (gt_boxes : Mat)
  (im_info : Vec) : Mat :=
  linear (reid_feat_net self)
    (fc7_of self (gallery_pooled im_data gt_boxes im_info)).
Definition gallery_cls_prob (self : SIPN) (im_data : Tensor4) (gt_boxes : Mat)
  (im_info : Vec) : Mat :=
  softmax (linear (cls_score_net self)
    (fc7_of self (gallery_pooled im_data gt_boxes im_info))).

(** One box row times the standard deviations plus the means, each
    repeated for the two classes. *)
Definition denormalize_row (mean std row : Vec) : Vec :=
  vadd (vmul row (std ++ std)%list) (mean ++ mean)%list.

Definition gallery_log : list string :=
  ["head"; "strpn"; "tail"; "cls_score_net"; "bbox_pred_net";
   "reid_feat_net"; "open config.yml"].

Definition query_reid_raw (self : SIPN) (im_data : Tensor4) (gt_boxes : Mat)
  (im_info : Vec) : Mat :=
  linear (reid_feat_net self)
    (fc7_of self (strpn_query (head im_data) gt_boxes im_info "query")).

Definition query_log : list string :=
  ["head"; "strpn"; "tail"; "reid_feat_net"].

(** What a gallery call does once the heads have run: the configuration
    is opened, the two keys are looked up, the constants are expanded. *)
Definition gallery_finish (cls_prob raw rois reid_feat : Mat) (w' : World)
  : Result Output * World :=
  match config_yml w' with
  | None => (Raise (IOError "config.yml"), w')
  | Some config =>
      match assoc "train_bbox_normalize_means" config with
      | None => (Raise (KeyError "train_bbox_normalize_means"), w')
      | Some mean =>
          match assoc "train_bbox_normalize_stds" config with
          | None => (Raise (KeyError "train_bbox_normalize_stds"), w')
          | Some std =>
              match expand_as (mean ++ mean)%list raw with
              | Raise err => (Raise err, w')
              | Ok means =>
                  match expand_as (std ++ std)%list raw with
                  | Raise err => (Raise err, w')
                  | Ok stds =>
                      (Ok (GalleryOut cls_prob (mul_add raw stds means)
                             rois reid_feat), w')
                  end
              end
          end
      end
  end.

(** The log entries that a call added. *)
Definition new_log (w w' : World) : list string :=
  drop (length (log w)) (log w').

(** A world with another configuration file. *)
Definition with_config (w : World) (c : option Config) : World :=
  mkWorld (bank w) c (log w).

End Forward.

(** ** A small instance *)

Definition toy_backbone : Backbone :=
  {| head := fun t => t; tail_fc := fun m => m; tail_conv := fun t => t |}.

Definition toy_proposal : Proposal :=
  {| BboxInfo := unit;
     strpn_train := fun conv gt _ =>
       (conv, conv, (1, 2), ([[1%nat]], [Known 0]), tt);
     strpn_gallery := fun conv gt _ => (gt, conv, conv);
     strpn_query := fun conv _ _ _ => conv |}.

Definition toy_losses : @Losses toy_proposal :=
  {| cross_entropy := fun _ _ => 3;
     smooth_l1_loss := fun _ _ => 4;
     identity_cross_entropy := fun _ _ _ => 5 |}.

(** A VGG model with one feature channel, one identity and one queue slot;
    the identity head multiplies by [scale]. *)
Definition toy_model (train : bool) (scale : R) : SIPN :=
  mkSIPN "vgg16" train 1 1 (1 / 2) 1
    (mkLinear [[1]; [1]] [0; 0])
    (mkLinear [[1]; [1]; [1]; [1]; [1]; [1]; [1]; [1]]
              [0; 0; 0; 0; 0; 0; 0; 0])
    (mkLinear [[scale]] [0]).

Definition toy_image : Tensor4 := [[[[1]]]].
Definition toy_boxes : Mat := [[0; 0; 1; 1]].
Definition toy_bank : Bank := mkBank [[0]] [[0]] 0.
Definition toy_config : Config :=
  [("train_bbox_normalize_means", [0; 0; 0; 0]);
   ("train_bbox_normalize_stds", [1; 1; 1; 1])].
Definition toy_world (c : option Config) : World := mkWorld toy_bank c [].

(** A bank with one identity whose row is opposite to the embedding [[1]],
    and a ring of two slots with three pushes in two batches. *)
Definition opposite_bank : Bank := mkBank [[-1]] [[0]] 0.
Definition ring_bank : Bank := mkBank [] [[0]; [0]] 0.
Definition ring_pushes : list Vec := [[1]; [2]; [3]].
Definition ring_batches : list (list (Vec * Label)) :=
  [[([1], Unlabeled); ([2], Unlabeled)]; [([3], Unlabeled)]].
Definition mixed_batches : list (list (Vec * Label)) :=
  [[([1], Known 0); ([1], Background)]; [([1], Known 0)]].

(** ** Initialization and checkpoints *)

(** The bank keeps its shape and its scale: rows of dimension [D] in both
    buffers, none longer than one, and a cursor inside the queue. *)
Definition bank_inv (D : nat) (b : Bank) : Prop :=
  Forall (fun row => length row = D /\ norm row <= 1) (lut b) /\
  Forall (fun row => length row = D /\ norm row <= 1) (queue b) /\
  (cursor b < length (queue b))%nat.

(** Rounding toward zero, and [Tensor.fmod_]: the remainder that has the
    sign of the dividend. *)
Definition Rtrunc (x : R) : Z :=
  if Rle_dec 0 x then Int_part x else (- Int_part (- x))%Z.

Definition fmod (x y : R) : R := x - IZR (Rtrunc (x / y)) * y.

(** The truncated branch of [normal_init]: a standard normal draw [z]
    becomes [z.fmod_(2).mul_(stddev).add_(mean)]; the bias is zeroed. *)
Definition truncated_weight (mean stddev z : R) : R :=
  fmod z 2 * stddev + mean.

Definition normal_init_truncated (mean stddev : R) (drawn : Mat) : Linear :=
  mkLinear (map (map (truncated_weight mean stddev)) drawn)
           (zeros (length drawn)).

Section Checkpoint.

(** The tensors of a state dictionary, the model they are loaded into and
    [nn.Module.load_state_dict], which belong to the framework. *)
Context {T ModuleState : Type}.
Variable state_keys : ModuleState -> list string.
Variable load_state_dict :
  ModuleState -> gmap string T -> Result unit * ModuleState.

(** [{k: state_dict[k] for k in keys}]. *)
Fixpoint select_keys (keys : list string) (state_dict : gmap string T)
  : Result (gmap string T) :=
  match keys with
  | [] => Ok ∅
  | k :: rest =>
      match state_dict !! k with
      | None => Raise (KeyError k)
      | Some v =>
          match select_keys rest state_dict with
          | Ok d => Ok (<[k := v]> d)
          | Raise e => Raise e
          end
      end
  end.

(** [SIPN.load_trained_model]. *)
Definition load_trained_model (self : ModuleState)
  (state_dict : gmap string T) : Result unit * ModuleState :=
  match select_keys (state_keys self) state_dict with
  | Ok d => load_state_dict self d
  | Raise e => (Raise e, self)
  end.

End Checkpoint.

(** A model whose state is a dictionary, loaded by replacing it. *)
Definition toy_keys (st : gmap string nat) : list string :=
  ["lut"; "queue"].
Definition toy_load (st d : gmap string nat)
  : Result unit * gmap string nat := (Ok tt, d).
Definition toy_state : gmap string nat :=
  <["lut" := 1%nat]> (<["queue" := 2%nat]> ∅).
Definition toy_checkpoint : gmap string nat :=
  <["lut" := 3%nat]> (<["queue" := 4%nat]> (<["optimizer" := 5%nat]> ∅)).

(** ** Norms and normalization *)

Lemma eps_pos : 0 < eps.
Proof. unfold eps. apply Rinv_0_lt_compat. lra. Qed.

Lemma eps_lt_1 : eps < 1.
Proof.
  unfold eps. rewrite <- Rinv_1. apply Rinv_lt_contravar; lra.
Qed.

Lemma sumsq_cons (x : R) (v : Vec) : sumsq (x :: v) = x * x + sumsq v.
Proof. reflexivity. Qed.

Lemma sumsq_nonneg (v : Vec) : 0 <= sumsq v.
Proof.
  induction v as [|x v IH]; [unfold sumsq; simpl; lra|].
  rewrite sumsq_cons. nra.
Qed.

Lemma norm_nonneg (v : Vec) : 0 <= norm v.
Proof. apply sqrt_pos. Qed.

Lemma norm_sqr (v : Vec) : norm v * norm v = sumsq v.
Proof. apply sqrt_sqrt, sumsq_nonneg. Qed.

Lemma sumsq_div (c : R) (v : Vec) :
  c <> 0 -> sumsq (map (fun x => x / c) v) = sumsq v / (c * c).
Proof.
  intros Hc. induction v as [|x v IH].
  - unfold sumsq; simpl. field. exact Hc.
  - simpl map. rewrite !sumsq_cons, IH. field. exact Hc.
Qed.

Lemma norm_div (c : R) (v : Vec) :
  0 < c -> norm (map (fun x => x / c) v) = norm v / c.
Proof.
  intros Hc. unfold norm. rewrite sumsq_div by lra.
  rewrite sqrt_div_alt by nra.
  rewrite sqrt_square by lra. reflexivity.
Qed.

Lemma norm_normalize (v : Vec) :
  norm (normalize v) = norm v / Rmax (norm v) eps.
Proof.
  unfold normalize. apply norm_div.
  apply Rlt_le_trans with eps; [apply eps_pos | apply Rmax_r].
Qed.

(** A row whose norm reaches [eps] has norm one after normalization. *)
Lemma norm_normalize_unit (v : Vec) :
  eps <= norm v -> norm (normalize v) = 1.
Proof.
  intros Hv. rewrite norm_normalize, Rmax_left by exact Hv.
  pose proof eps_pos. field. lra.
Qed.

(** A shorter row is only divided by [eps]. *)
Lemma norm_normalize_small (v : Vec) :
  norm v <= eps -> norm (normalize v) = norm v / eps.
Proof.
  intros Hv. rewrite norm_normalize, Rmax_right by exact Hv. reflexivity.
Qed.

Lemma norm_normalize_le_1 (v : Vec) : norm (normalize v) <= 1.
Proof.
  destruct (Rle_dec eps (norm v)) as [Hv|Hv].
  - rewrite norm_normalize_unit by exact Hv. lra.
  - rewrite norm_normalize_small by lra.
    pose proof eps_pos as He. unfold Rdiv.
    apply Rmult_le_reg_r with eps; [exact He|].
    rewrite Rmult_assoc, Rinv_l by lra. lra.
Qed.

Lemma div_1_map (v : Vec) : map (fun x => x / 1) v = v.
Proof.
  induction v as [|x v IH]; [reflexivity|]. simpl. rewrite IH. f_equal. field.
Qed.

Lemma normalize_unit (v : Vec) : norm v = 1 -> normalize v = v.
Proof.
  intros Hv. unfold normalize. rewrite Hv, Rmax_left.
  - apply div_1_map.
  - pose proof eps_lt_1. lra.
Qed.

Lemma sumsq_0_map (f : R -> R) (v : Vec) :
  f 0 = 0 -> sumsq v = 0 -> map f v = v.
Proof.
  intros Hf. induction v as [|x v IH]; [reflexivity|].
  rewrite sumsq_cons. intros Hs. pose proof (sumsq_nonneg v).
  assert (x = 0) as -> by nra.
  simpl. rewrite Hf. f_equal. apply IH. nra.
Qed.

Lemma normalize_null (v : Vec) : norm v = 0 -> normalize v = v.
Proof.
  intros Hv. unfold normalize. apply sumsq_0_map.
  - unfold Rdiv. apply Rmult_0_l.
  - rewrite <- norm_sqr, Hv. lra.
Qed.

Lemma normalize_stable (v : Vec) : unit_or_null v -> normalize v = v.
Proof. intros [Hv|Hv]; [apply normalize_unit | apply normalize_null]; exact Hv. Qed.

(** ** The bank update *)

Lemma update_app (m : R) (b : Bank) (l1 l2 : list (Vec * Label)) :
  update m b (l1 ++ l2) =
  match update m b l1 with
  | (b', None) => update m b' l2
  | (b', Some err) => (b', Some err)
  end.
Proof.
  revert b. induction l1 as [|s l1 IH]; intros b; simpl; [reflexivity|].
  destruct (update_one m b s) as [b'|err]; [apply IH | reflexivity].
Qed.

(** Calling [update] batch after batch is one [update] on the batches laid
    end to end. *)
Lemma updates_concat (m : R) (b : Bank) (batches : list (list (Vec * Label))) :
  updates m b batches = update m b (concat batches).
Proof.
  revert b. induction batches as [|batch rest IH]; intros b; simpl;
    [reflexivity|].
  rewrite update_app. destruct (update m b batch) as [b' [err|]];
    [reflexivity | apply IH].
Qed.

(** The only failures of [update] are a bad index and a bad shape. *)
Lemma update_one_error (m : R) (b : Bank) (s : Vec * Label) (err : Error) :
  update_one m b s = Raise err ->
  err = ShapeError \/ exists i, err = IndexError i.
Proof.
  destruct s as [e [|i|]]; unfold update_one; cbv beta iota; [discriminate| |].
  - destruct (lut b !! i); [destruct (Nat.eqb _ _)|];
      intros [= <-]; eauto.
  - destruct (queue b !! cursor b); [destruct (Nat.eqb _ _)|];
      intros [= <-]; eauto.
Qed.

Lemma update_error (m : R) (batch : list (Vec * Label)) (b b' : Bank)
  (err : Error) :
  update m b batch = (b', Some err) ->
  err = ShapeError \/ exists i, err = IndexError i.
Proof.
  revert b. induction batch as [|s rest IH]; intros b; simpl; [discriminate|].
  destruct (update_one m b s) as [b1|e1] eqn:Hs; [apply IH|].
  intros [= _ <-]. eapply update_one_error, Hs.
Qed.

Lemma update_one_background (m : R) (b : Bank) (e : Vec) :
  update_one m b (e, Background) = Ok b.
Proof. reflexivity. Qed.

Lemma update_background (m : R) (b : Bank) (batch : list (Vec * Label)) :
  Forall (fun s => is_background s = true) batch ->
  update m b batch = (b, None).
Proof.
  induction 1 as [|[e l] rest Hs _ IH]; [reflexivity|].
  destruct l; try discriminate. simpl. exact IH.
Qed.

Lemma update_one_known (m : R) (b : Bank) (e row : Vec) (i : nat) :
  lut b !! i = Some row -> length e = length row ->
  update_one m b (e, Known i) =
  Ok (mkBank (<[i := normalize (blend m row e)]> (lut b)) (queue b) (cursor b)).
Proof.
  intros Hi He. unfold update_one. cbv beta iota.
  rewrite Hi, He, Nat.eqb_refl. reflexivity.
Qed.

Lemma update_one_unlabeled (m : R) (b : Bank) (D : nat) (e : Vec) :
  queue_wf D b -> length e = D ->
  update_one m b (e, Unlabeled) =
  Ok (mkBank (lut b) (<[cursor b := e]> (queue b))
             ((cursor b + 1) mod bank_queue_size b)).
Proof.
  intros [Hrows Hc] He. unfold update_one. cbv beta iota.
  destruct (lookup_lt_is_Some_2 _ _ Hc) as [slot Hslot]. rewrite Hslot.
  rewrite Forall_lookup in Hrows. rewrite He, (Hrows _ _ Hslot), Nat.eqb_refl.
  reflexivity.
Qed.

(** ** Momentum one *)

Lemma vscale_1 (v : Vec) : vscale 1 v = v.
Proof.
  induction v as [|x v IH]; [reflexivity|].
  simpl. rewrite Rmult_1_l. f_equal. exact IH.
Qed.

Lemma vadd_null (u v : Vec) :
  length v = length u -> vadd u (vscale 0 v) = u.
Proof.
  revert v. induction u as [|x u IH]; intros [|y v]; simpl; try discriminate;
    [reflexivity|].
  intros [= Hl]. rewrite Rmult_0_l, Rplus_0_r. f_equal. apply IH, Hl.
Qed.

Lemma blend_1 (row e : Vec) : length e = length row -> blend 1 row e = row.
Proof.
  intros He. unfold blend. rewrite vscale_1, Rminus_diag. apply vadd_null, He.
Qed.

Lemma update_one_known_1 (b : Bank) (e : Vec) (i : nat) :
  Forall unit_or_null (lut b) -> known_in_range b (e, Known i) ->
  update_one 1 b (e, Known i) = Ok b.
Proof.
  intros Hrows (row & Hi & He). rewrite (update_one_known _ _ _ _ _ Hi He).
  rewrite blend_1 by exact He.
  rewrite Forall_lookup in Hrows.
  rewrite normalize_stable by exact (Hrows _ _ Hi).
  rewrite list_insert_id by exact Hi. destruct b; reflexivity.
Qed.

(** ** The queue as a ring *)

Lemma mod_distinct (c j n Q : nat) :
  (j < n)%nat -> (n < j + Q)%nat -> (c + j) mod Q <> (c + n) mod Q.
Proof.
  intros Hj Hn Heq.
  pose proof (Nat.div_mod_eq (c + j) Q) as Hcj.
  pose proof (Nat.div_mod_eq (c + n) Q) as Hcn.
  rewrite Heq in Hcj.
  set (a := ((c + j) / Q)%nat) in *. set (a' := ((c + n) / Q)%nat) in *.
  set (r := ((c + n) mod Q)%nat) in *.
  destruct (le_lt_dec a' a) as [Hle|Hlt].
  - pose proof (Nat.mul_le_mono_l a' a Q Hle). lia.
  - pose proof (Nat.mul_le_mono_l (S a) a' Q Hlt). lia.
Qed.

(** After any number of pushes, the slot that the [j]-th push wrote still
    holds its embedding as long as fewer than [Q] pushes followed it. *)
Lemma push_invariant (m : R) (D : nat) (es : list Vec) (b : Bank) :
  queue_wf D b -> Forall (fun e => length e = D) es ->
  exists q' : list Vec,
    update m b (unlabeled es) =
      (mkBank (lut b) q' ((cursor b + length es) mod bank_queue_size b), None) /\
    length q' = bank_queue_size b /\
    Forall (fun row => length row = D) q' /\
    forall j, (j < length es)%nat ->
      (length es <= j + bank_queue_size b)%nat ->
      q' !! ((cursor b + j) mod bank_queue_size b) = es !! j.
Proof.
  intros Hwf. induction es as [|e es IH] using rev_ind; intros Hes.
  - exists (queue b). destruct Hwf as [Hrows Hc]. repeat split; try done.
    + simpl. rewrite Nat.add_0_r, Nat.mod_small by exact Hc.
      destruct b; reflexivity.
    + simpl. lia.
  - apply Forall_app in Hes as [Hes He]. apply Forall_inv in He.
    destruct (IH Hes) as (q1 & Hup & Hlen & Hrows & Hslots). clear IH.
    assert (0 < bank_queue_size b)%nat as HQ
      by (destruct Hwf as [_ Hc]; unfold bank_queue_size; lia).
    set (c1 := (cursor b + length es) mod bank_queue_size b) in *.
    assert (c1 < bank_queue_size b)%nat as Hc1
      by (apply Nat.mod_upper_bound; lia).
    assert (queue_wf D (mkBank (lut b) q1 c1)) as Hwf1
      by (split; simpl; [exact Hrows | lia]).
    exists (<[c1 := e]> q1). repeat split.
    + unfold unlabeled. rewrite map_app, update_app.
      fold (unlabeled es). rewrite Hup. simpl map. cbn [update].
      rewrite (update_one_unlabeled m _ D e Hwf1 He). simpl.
      unfold bank_queue_size at 1. simpl. rewrite Hlen.
      do 2 f_equal. subst c1. rewrite length_app. simpl.
      rewrite Nat.Div0.add_mod_idemp_l by lia. f_equal. lia.
    + rewrite length_insert. exact Hlen.
    + apply Forall_insert; assumption.
    + intros j Hj Hwin. rewrite length_app in Hj, Hwin. simpl in Hj, Hwin.
      destruct (decide (j = length es)) as [->|Hne].
      * fold c1. rewrite list_lookup_insert_eq by lia.
        rewrite lookup_app_r by lia. rewrite Nat.sub_diag. reflexivity.
      * rewrite list_lookup_insert_ne
          by (subst c1; apply not_eq_sym, mod_distinct; lia).
        rewrite lookup_app_l by lia. apply Hslots; lia.
Qed.

Lemma rotate_nat_add_mod (c i Q : nat) :
  rotate_nat_add c i Q = (c + i) mod Q.
Proof.
  unfold rotate_nat_add.
  rewrite <- Nat2Z.inj_add, <- Nat2Z.inj_mod. apply Nat2Z.id.
Qed.

Lemma rotate_Permutation {A} (n : nat) (l : list A) : rotate n l ≡ₚ l.
Proof.
  unfold rotate. rewrite Permutation_app_comm. rewrite take_drop. reflexivity.
Qed.

(** Read from the cursor on, the queue is the last [Q] embeddings pushed,
    the oldest first. *)
Lemma push_window (m : R) (D k : nat) (es : list Vec) (b : Bank) :
  queue_wf D b -> Forall (fun e => length e = D) es ->
  length es = (bank_queue_size b + k)%nat ->
  exists q' : list Vec,
    update m b (unlabeled es) =
      (mkBank (lut b) q' ((cursor b + k) mod bank_queue_size b), None) /\
    rotate ((cursor b + k) mod bank_queue_size b) q' = drop k es.
Proof.
  intros Hwf Hes Hn.
  destruct (push_invariant m D es b Hwf Hes) as (q' & Hup & Hlen & _ & Hslots).
  assert (0 < bank_queue_size b)%nat as HQ
    by (destruct Hwf as [_ Hc]; unfold bank_queue_size; lia).
  assert ((cursor b + length es) mod bank_queue_size b =
          (cursor b + k) mod bank_queue_size b) as Hcur.
  { rewrite Hn. replace (cursor b + (bank_queue_size b + k))%nat
      with (cursor b + k + 1 * bank_queue_size b)%nat by lia.
    apply Nat.Div0.mod_add. }
  rewrite Hcur in Hup. exists q'. split; [exact Hup|].
  apply list_eq. intros i. rewrite lookup_drop.
  destruct (decide (i < bank_queue_size b)%nat) as [Hi|Hi].
  - rewrite lookup_rotate_r by lia. rewrite Hlen, rotate_nat_add_mod.
    rewrite Nat.Div0.add_mod_idemp_l by lia.
    rewrite <- Nat.add_assoc. apply Hslots; lia.
  - rewrite lookup_ge_None_2 by (rewrite length_rotate; lia).
    symmetry. apply lookup_ge_None_2. lia.
Qed.

(** ** What [forward] does, mode by mode *)

Section ForwardFacts.

Context `{Backbone} `{Losses}.

Lemma descriptor_run (self : SIPN) (pooled_feat : Tensor4) (w : World) :
  descriptor self pooled_feat w =
  (Ok (fc7_of self pooled_feat),
   mkWorld (bank w) (config_yml w) (log w ++ ["tail"])).
Proof.
  unfold descriptor, fc7_of.
  destruct (String.eqb (net_name self) "vgg16"); reflexivity.
Qed.

Lemma mul_add_expand (raw : Mat) (means stds : Vec) :
  mul_add raw (map (fun _ => stds) raw) (map (fun _ => means) raw) =
  map (fun row => vadd (vmul row stds) means) raw.
Proof.
  unfold mul_add. induction raw as [|row raw IH]; [reflexivity|].
  simpl. f_equal. exact IH.
Qed.

Lemma expand_as_ok (row : Vec) (m : Mat) :
  Forall (fun r => length r = length row) m ->
  expand_as row m = Ok (map (fun _ => row) m).
Proof.
  intros Hm. unfold expand_as.
  rewrite (proj2 (forallb_forall _ m)); [reflexivity|].
  intros r Hr. apply Nat.eqb_eq.
  rewrite Forall_forall in Hm. apply Hm, list_elem_of_In, Hr.
Qed.

Lemma bind_call {A B} (name : string) (v : A) (k : A -> M B) (w : World) :
  bind (call name v) k w =
  k v (mkWorld (bank w) (config_yml w) (log w ++ [name])).
Proof. reflexivity. Qed.

Lemma bind_ok {A B} (c : M A) (k : A -> M B) (w w' : World) (a : A) :
  c w = (Ok a, w') -> bind c k w = k a w'.
Proof. intros Hc. unfold bind. rewrite Hc. reflexivity. Qed.

(** A training call: the losses are taken on the bank as it is on entry,
    the bank is updated with the normalized embeddings, and a failure of
    the update is the only failure. *)
Lemma forward_train_run (self : SIPN) (im_data : Tensor4) (gt_boxes : Mat)
  (im_info : Vec) (mode : string) (w : World) :
  is_train self = true ->
  forward self im_data gt_boxes im_info mode w =
  let up := update (lut_momentum self) (bank w)
              (train_samples self im_data gt_boxes im_info) in
  (match up.2 with
   | None => Ok (train_losses self im_data gt_boxes im_info (bank w))
   | Some err => Raise err
   end,
   mkWorld up.1 (config_yml w) (log w ++ train_log)).
Proof.
  intros Htrain. unfold forward. rewrite Htrain.
  unfold train_samples, train_losses, train_reid_raw, train_pooled,
    train_rpn_loss, train_det_label, train_pid_label, train_bbox_info,
    train_log.
  rewrite !bind_call.
  destruct (strpn_train (head im_data) gt_boxes im_info)
    as [[[[pooled trans] [rc rb]] [det pid]] binfo].
  rewrite (bind_ok _ _ _ _ _ (descriptor_run _ _ _)), !bind_call.
  unfold bind, oim_loss, ret. simpl.
  destruct (update _ _ _) as [b' [err|]]; simpl;
    rewrite <- !app_assoc; reflexivity.
Qed.

(** A query call. *)
Lemma forward_query_run (self : SIPN) (im_data : Tensor4) (gt_boxes : Mat)
  (im_info : Vec) (w : World) :
  is_train self = false ->
  forward self im_data gt_boxes im_info "query" w =
  (Ok (QueryOut (normalize_rows
                   (query_reid_raw self im_data gt_boxes im_info))),
   mkWorld (bank w) (config_yml w) (log w ++ query_log)).
Proof.
  intros Htrain. unfold forward. rewrite Htrain.
  change (String.eqb "query" "gallery") with false.
  change (String.eqb "query" "query") with true. cbv iota.
  unfold query_reid_raw, query_log.
  rewrite !bind_call.
  rewrite (bind_ok _ _ _ _ _ (descriptor_run _ _ _)), !bind_call.
  unfold ret. simpl. rewrite <- !app_assoc. reflexivity.
Qed.

(** A call with a mode that is neither ["gallery"] nor ["query"]. *)
Lemma forward_bad_mode_run (self : SIPN) (im_data : Tensor4) (gt_boxes : Mat)
  (im_info : Vec) (mode : string) (w : World) :
  is_train self = false -> mode <> "gallery" -> mode <> "query" ->
  forward self im_data gt_boxes im_info mode w = (Raise (KeyError mode), w).
Proof.
  intros Htrain Hg Hq. unfold forward. rewrite Htrain.
  apply String.eqb_neq in Hg, Hq. rewrite Hg, Hq. reflexivity.
Qed.

(** A gallery call. *)
Lemma forward_gallery_run (self : SIPN) (im_data : Tensor4) (gt_boxes : Mat)
  (im_info : Vec) (w : World) :
  is_train self = false ->
  forward self im_data gt_boxes im_info "gallery" w =
  gallery_finish
    (gallery_cls_prob self im_data gt_boxes im_info)
    (gallery_bbox_raw self im_data gt_boxes im_info)
    (gallery_rois im_data gt_boxes im_info)
    (normalize_rows (gallery_reid_raw self im_data gt_boxes im_info))
    (mkWorld (bank w) (config_yml w) (log w ++ gallery_log)).
Proof.
  intros Htrain. unfold forward. rewrite Htrain.
  change (String.eqb "gallery" "gallery") with true. cbv iota.
  unfold gallery_bbox_raw, gallery_reid_raw, gallery_cls_prob, gallery_rois,
    gallery_pooled, gallery_log, gallery_finish.
  rewrite !bind_call.
  destruct (strpn_gallery (head im_data) gt_boxes im_info)
    as [[rois pooled] trans].
  rewrite (bind_ok _ _ _ _ _ (descriptor_run _ _ _)), !bind_call.
  unfold bind, open_config, getitem, lift, raise, ret. simpl.
  rewrite <- !app_assoc. simpl.
  destruct (config_yml w) as [config|]; [|reflexivity].
  destruct (assoc "train_bbox_normalize_means" config) as [mean|];
    [|reflexivity].
  destruct (assoc "train_bbox_normalize_stds" config) as [std|];
    [|reflexivity].
  destruct (expand_as (mean ++ mean) _) as [means|err]; [|reflexivity].
  destruct (expand_as (std ++ std) _) as [stds|err]; reflexivity.
Qed.

End ForwardFacts.

(** ** The identity bank: the claims *)

Lemma blend_step (m : R) (row e : Vec) :
  vsub (blend m row e) row = vscale (1 - m) (vsub e row).
Proof.
  unfold blend, vsub, vadd, vscale. revert e.
  induction row as [|x row IH]; intros [|y e]; simpl; try reflexivity.
  f_equal; [ring | apply IH].
Qed.

Lemma norm_singleton (a : R) : 0 <= a -> norm [a] = a.
Proof.
  intros Ha. unfold norm, sumsq. simpl. rewrite Rplus_0_r.
  apply sqrt_square, Ha.
Qed.

(** C1, as amended.  A sample with the known identity [i] replaces row [i]
    of [lut] by [normalize (momentum * lut[i] + (1 - momentum) * e)] and
    leaves the other rows alone; before normalization the row has moved
    from its old value toward the embedding by the fraction
    [1 - momentum] of their difference; the new row has norm one exactly
    when the blended vector has norm at least [eps], and a null blend stays
    null. *)
Theorem lut_moving_average (m : R) (b : Bank) (i : nat) (row e : Vec) :
  lut b !! i = Some row -> length e = length row ->
  let v := blend m row e in
  let lut' := <[i := normalize v]> (lut b) in
  update_one m b (e, Known i) = Ok (mkBank lut' (queue b) (cursor b)) /\
  lut' !! i = Some (normalize v) /\
  (forall j, j <> i -> lut' !! j = lut b !! j) /\
  vsub v row = vscale (1 - m) (vsub e row) /\
  (norm (normalize v) = 1 <-> eps <= norm v) /\
  (norm v = 0 -> normalize v = v).
Proof.
  intros Hi He v lut'.
  split; [apply update_one_known; assumption|].
  split; [apply list_lookup_insert_eq; eapply lookup_lt_Some, Hi|].
  split; [intros j Hj; apply list_lookup_insert_ne; congruence|].
  split; [apply blend_step|].
  split; [|apply normalize_null].
  split; [|apply norm_normalize_unit].
  intros Hunit. destruct (Rle_or_lt eps (norm v)) as [Hv|Hv]; [exact Hv|].
  exfalso. rewrite norm_normalize_small in Hunit by lra.
  pose proof eps_pos as He'.
  apply (f_equal (fun r => r * eps)) in Hunit.
  unfold Rdiv in Hunit. rewrite Rmult_assoc, Rinv_l in Hunit; lra.
Qed.

Lemma lut_moving_average_witness :
  lut toy_bank !! 0%nat = Some [0] /\
  length [1] = length [0] /\
  update_one (1 / 2) toy_bank ([1], Known 0) =
    Ok (mkBank (<[0%nat := normalize (blend (1 / 2) [0] [1])]> (lut toy_bank))
               (queue toy_bank) (cursor toy_bank)).
Proof.
  split; [reflexivity|]. split; [reflexivity|].
  exact (proj1 (lut_moving_average (1 / 2) toy_bank 0 [0] [1]
                  eq_refl eq_refl)).
Defined.

(** C1, as stated, fails: with momentum [1/2], the unit row [[-1]] and the
    unit embedding [[1]] blend to the null vector, which normalization
    leaves null, so the updated row does not have norm one. *)
Lemma unit_norm_fails_on_opposite_embedding :
  norm [-1] = 1 /\ norm [1] = 1 /\
  exists row',
    update_one (1 / 2) opposite_bank ([1], Known 0) =
      Ok (mkBank [row'] [[0]] 0) /\
    norm row' <> 1.
Proof.
  split; [|split].
  - unfold norm, sumsq. simpl.
    replace (-1 * -1 + 0) with (1 * 1) by ring. apply sqrt_square. lra.
  - apply norm_singleton. lra.
  - exists (normalize (blend (1 / 2) [-1] [1])). split; [reflexivity|].
    assert (blend (1 / 2) [-1] [1] = [0]) as ->.
    { unfold blend. simpl. f_equal. lra. }
    rewrite normalize_null by (apply norm_singleton; lra).
    rewrite norm_singleton by lra. lra.
Qed.

(** C2.  An unlabeled-person sample is written at the cursor, which then
    advances modulo the queue size.  After [Q + k] such samples with
    [k < Q], fed in any number of [update] calls, the queue read from the
    cursor on is the last [Q] embeddings in the order they were pushed:
    the first [k] written, the oldest, were overwritten. *)
Theorem queue_fifo_ring (m : R) (D k : nat) (b : Bank) (es : list Vec)
  (batches : list (list (Vec * Label))) :
  queue_wf D b ->
  Forall (fun e => length e = D) es ->
  concat batches = unlabeled es ->
  length es = (bank_queue_size b + k)%nat ->
  (k < bank_queue_size b)%nat ->
  (forall e, length e = D ->
     update_one m b (e, Unlabeled) =
     Ok (mkBank (lut b) (<[cursor b := e]> (queue b))
                ((cursor b + 1) mod bank_queue_size b))) /\
  exists q' : list Vec,
    updates m b batches =
      (mkBank (lut b) q' ((cursor b + k) mod bank_queue_size b), None) /\
    rotate ((cursor b + k) mod bank_queue_size b) q' = drop k es /\
    q' ≡ₚ drop k es.
Proof.
  intros Hwf Hes Hbatches Hn _. split.
  - intros e He. eapply update_one_unlabeled; eassumption.
  - destruct (push_window m D k es b Hwf Hes Hn) as (q' & Hup & Hrot).
    exists q'. rewrite updates_concat, Hbatches.
    repeat split; [exact Hup | exact Hrot |].
    rewrite <- Hrot. symmetry. apply rotate_Permutation.
Qed.

Lemma queue_fifo_ring_witness :
  queue_wf 1 ring_bank /\
  exists q' : list Vec,
    updates (1 / 2) ring_bank ring_batches = (mkBank [] q' 1, None) /\
    rotate 1 q' = [[2]; [3]] /\
    q' ≡ₚ [[2]; [3]].
Proof.
  assert (queue_wf 1 ring_bank) as Hwf
    by (split; [repeat constructor | simpl; lia]).
  split; [exact Hwf|].
  refine (proj2 (queue_fifo_ring (1 / 2) 1 1 ring_bank ring_pushes
                   ring_batches Hwf _ eq_refl eq_refl _)).
  - repeat constructor.
  - unfold bank_queue_size. simpl. lia.
Defined.

(** ** Momentum one *)

Lemma update_one_unlabeled_lut (m : R) (b b' : Bank) (e : Vec) :
  update_one m b (e, Unlabeled) = Ok b' -> lut b' = lut b.
Proof.
  unfold update_one. cbv beta iota.
  destruct (queue b !! cursor b); [destruct (Nat.eqb _ _)|];
    intros [= <-]; reflexivity.
Qed.

Lemma known_in_range_lut (b b' : Bank) (s : Vec * Label) :
  lut b' = lut b -> known_in_range b s -> known_in_range b' s.
Proof. unfold known_in_range. intros ->. trivial. Qed.

Lemma momentum_one_batch (batch : list (Vec * Label)) (b : Bank) :
  Forall unit_or_null (lut b) -> Forall (known_in_range b) batch ->
  update 1 b batch = update 1 b (List.filter is_unlabeled batch) /\
  lut (update 1 b batch).1 = lut b.
Proof.
  revert b. induction batch as [|[e l] rest IH]; intros b Hrows Hbatch.
  - split; reflexivity.
  - apply Forall_cons in Hbatch as [Hs Hrest]. destruct l as [|i|].
    + exact (IH b Hrows Hrest).
    + change (List.filter is_unlabeled ((e, Known i) :: rest))
        with (List.filter is_unlabeled rest).
      cbn [update]. rewrite (update_one_known_1 b e i Hrows Hs).
      exact (IH b Hrows Hrest).
    + change (List.filter is_unlabeled ((e, Unlabeled) :: rest))
        with ((e, Unlabeled) :: List.filter is_unlabeled rest).
      cbn [update].
      destruct (update_one 1 b (e, Unlabeled)) as [b'|err] eqn:Hone;
        [|split; reflexivity].
      pose proof (update_one_unlabeled_lut _ _ _ _ Hone) as Hlut.
      rewrite <- Hlut. apply IH.
      * rewrite Hlut. exact Hrows.
      * eapply Forall_impl; [exact Hrest|].
        intros s. apply known_in_range_lut, Hlut.
Qed.

Lemma filter_unlabeled_nil (batch : list (Vec * Label)) :
  Forall (fun s => is_unlabeled s = false) batch ->
  List.filter is_unlabeled batch = [].
Proof.
  induction 1 as [|s rest Hs _ IH]; [reflexivity|].
  simpl. rewrite Hs. exact IH.
Qed.

(** C7, as amended.  With momentum one, on a bank whose [lut] rows have
    norm one or zero and for batches whose known identities are in range,
    repeated [update] calls leave [lut] unchanged and do to the queue what
    their unlabeled-person samples alone do; with no such sample the bank
    is exactly unchanged. *)
Theorem momentum_one_update (b : Bank) (batches : list (list (Vec * Label))) :
  Forall unit_or_null (lut b) ->
  Forall (Forall (known_in_range b)) batches ->
  updates 1 b batches =
    update 1 b (List.filter is_unlabeled (concat batches)) /\
  lut (updates 1 b batches).1 = lut b /\
  (Forall (Forall (fun s => is_unlabeled s = false)) batches ->
   updates 1 b batches = (b, None)).
Proof.
  intros Hrows Hbatches. rewrite updates_concat.
  apply Forall_concat in Hbatches.
  destruct (momentum_one_batch _ b Hrows Hbatches) as [Heq Hlut].
  repeat split; [exact Heq | exact Hlut |].
  intros Hnone. rewrite Heq, filter_unlabeled_nil; [reflexivity|].
  apply Forall_concat, Hnone.
Qed.

Lemma momentum_one_update_witness :
  Forall unit_or_null (lut toy_bank) /\
  updates 1 toy_bank mixed_batches = (toy_bank, None).
Proof.
  assert (Forall unit_or_null (lut toy_bank)) as Hrows.
  { constructor; [right; apply norm_singleton; lra | constructor]. }
  split; [exact Hrows|].
  refine (proj2 (proj2 (momentum_one_update toy_bank mixed_batches Hrows _)) _).
  - unfold mixed_batches, known_in_range.
    repeat (apply Forall_cons; split); try apply Forall_nil; simpl;
      try exact I; exists [0]; split; reflexivity.
  - repeat constructor.
Defined.

(** C7, as stated, fails: with momentum one an unlabeled-person sample is
    still written into the queue. *)
Lemma momentum_one_still_pushes :
  update 1 toy_bank [([1], Unlabeled)] = (mkBank [[0]] [[1]] 0, None) /\
  queue (update 1 toy_bank [([1], Unlabeled)]).1 <> queue toy_bank.
Proof.
  split; [reflexivity|]. simpl. intros [= Heq]. lra.
Qed.

(** ** The mode controller: the claims *)

Section ForwardClaims.

Context `{Backbone} `{Losses}.

Lemma gallery_finish_world (cls_prob raw rois reid_feat : Mat) (w' : World) :
  (gallery_finish cls_prob raw rois reid_feat w').2 = w'.
Proof.
  unfold gallery_finish.
  destruct (config_yml w') as [config|]; [|reflexivity].
  destruct (assoc _ config) as [mean|]; [|reflexivity].
  destruct (assoc _ config) as [std|]; [|reflexivity].
  destruct (expand_as (mean ++ mean) _) as [means|err]; [|reflexivity].
  destruct (expand_as (std ++ std) _) as [stds|err]; reflexivity.
Qed.

Lemma gallery_finish_reid (cls_prob raw rois reid_feat : Mat) (w w' : World)
  (out : Output) :
  gallery_finish cls_prob raw rois reid_feat w = (Ok out, w') ->
  exists bbox_pred, out = GalleryOut cls_prob bbox_pred rois reid_feat.
Proof.
  unfold gallery_finish.
  destruct (config_yml w) as [config|]; [|discriminate].
  destruct (assoc _ config) as [mean|]; [|discriminate].
  destruct (assoc _ config) as [std|]; [|discriminate].
  destruct (expand_as (mean ++ mean) _) as [means|err]; [|discriminate].
  destruct (expand_as (std ++ std) _) as [stds|err]; [|discriminate].
  intros [= <- _]. eauto.
Qed.

(** An inference call leaves the bank as it is and adds the log entries of
    its mode. *)
Lemma forward_inference_world (self : SIPN) (im_data : Tensor4)
  (gt_boxes : Mat) (im_info : Vec) (mode : string) (w : World) :
  is_train self = false ->
  (forward self im_data gt_boxes im_info mode w).2 =
  mkWorld (bank w) (config_yml w)
    (log w ++ if String.eqb mode "gallery" then gallery_log
              else if String.eqb mode "query" then query_log else []).
Proof.
  intros Htrain.
  destruct (String.eqb_spec mode "gallery") as [->|Hg].
  - rewrite forward_gallery_run by exact Htrain. apply gallery_finish_world.
  - destruct (String.eqb_spec mode "query") as [->|Hq].
    + rewrite forward_query_run by exact Htrain. reflexivity.
    + rewrite forward_bad_mode_run by assumption.
      rewrite app_nil_r. destruct w; reflexivity.
Qed.

(** C3.  A background sample leaves the bank exactly as it is, alone or in
    a batch of any length, and so does every call of [forward] on a model
    that is not in training mode, whatever its mode argument. *)
Theorem bank_frame :
  (forall (m : R) (b : Bank) (e : Vec),
     update_one m b (e, Background) = Ok b) /\
  (forall (m : R) (b : Bank) (batch : list (Vec * Label)),
     Forall (fun s => is_background s = true) batch ->
     update m b batch = (b, None)) /\
  (forall (self : SIPN) (im_data : Tensor4) (gt_boxes : Mat) (im_info : Vec)
     (mode : string) (w : World),
     is_train self = false ->
     bank (forward self im_data gt_boxes im_info mode w).2 = bank w).
Proof.
  split; [|split].
  - apply update_one_background.
  - apply update_background.
  - intros self im_data gt_boxes im_info mode w Htrain.
    rewrite forward_inference_world by exact Htrain. reflexivity.
Qed.

(** C4.  A training call that returns returns the five losses, in the
    order RPN classification, RPN box, detection classification, box
    regression, identity, each as a value of its own; it returns whenever
    the bank update accepts the batch. *)
Theorem five_losses (self : SIPN) (im_data : Tensor4) (gt_boxes : Mat)
  (im_info : Vec) (mode : string) (w : World) :
  is_train self = true ->
  let fc7 := fc7_of self (train_pooled im_data gt_boxes im_info) in
  let losses :=
    TrainOut
      (train_rpn_loss im_data gt_boxes im_info).1
      (train_rpn_loss im_data gt_boxes im_info).2
      (cross_entropy (view_pairs (linear (cls_score_net self) fc7))
         (concat (train_det_label im_data gt_boxes im_info)))
      (smooth_l1_loss (linear (bbox_pred_net self) fc7)
         (train_bbox_info im_data gt_boxes im_info))
      (identity_cross_entropy
         (similarity_logits (bank w)
            (normalize_rows (train_reid_raw self im_data gt_boxes im_info)))
         (train_pid_label im_data gt_boxes im_info) (length gt_boxes)) in
  (forall out w',
     forward self im_data gt_boxes im_info mode w = (Ok out, w') ->
     out = losses) /\
  ((update (lut_momentum self) (bank w)
      (train_samples self im_data gt_boxes im_info)).2 = None ->
   (forward self im_data gt_boxes im_info mode w).1 = Ok losses).
Proof.
  intros Htrain fc7 losses. rewrite forward_train_run by exact Htrain.
  cbv zeta. fold fc7.
  destruct (update _ _ _) as [b' [err|]]; simpl; split.
  - discriminate.
  - discriminate.
  - intros out w' [= <- _]. reflexivity.
  - reflexivity.
Qed.

(** C5.  On a model that is not in training mode, a mode other than
    ["gallery"] and ["query"] raises [KeyError] at once: no submodule is
    called, no file is read, and the bank is not touched. *)
Theorem invalid_mode_fatal (self : SIPN) (im_data : Tensor4) (gt_boxes : Mat)
  (im_info : Vec) (mode : string) (w : World) :
  is_train self = false -> mode <> "gallery" -> mode <> "query" ->
  forward self im_data gt_boxes im_info mode w = (Raise (KeyError mode), w) /\
  bank (forward self im_data gt_boxes im_info mode w).2 = bank w /\
  new_log w (forward self im_data gt_boxes im_info mode w).2 = [].
Proof.
  intros Htrain Hg Hq. rewrite forward_bad_mode_run by assumption.
  repeat split. unfold new_log. simpl. apply drop_all.
Qed.

(** C10.  On a model in training mode, every mode argument gives the call
    that ["gallery"] gives: the training path, which updates the bank with
    the batch and returns the losses.  It never raises [KeyError]. *)
Theorem train_ignores_mode (self : SIPN) (im_data : Tensor4) (gt_boxes : Mat)
  (im_info : Vec) (mode : string) (w : World) :
  is_train self = true ->
  forward self im_data gt_boxes im_info mode w =
    forward self im_data gt_boxes im_info "gallery" w /\
  bank (forward self im_data gt_boxes im_info mode w).2 =
    (update (lut_momentum self) (bank w)
       (train_samples self im_data gt_boxes im_info)).1 /\
  new_log w (forward self im_data gt_boxes im_info mode w).2 = train_log /\
  forall key,
    (forward self im_data gt_boxes im_info mode w).1 <> Raise (KeyError key).
Proof.
  intros Htrain. rewrite !forward_train_run by exact Htrain. cbv zeta.
  repeat split.
  - unfold new_log. simpl. apply drop_app_length.
  - intros key. simpl.
    destruct (update _ _ _) as [b' [err|]] eqn:Hup; simpl; [|discriminate].
    destruct (update_error _ _ _ _ _ Hup) as [->|[i ->]]; discriminate.
Qed.

Lemma normalize_rows_lookup (raw : Mat) (i : nat) (x : Vec) :
  raw !! i = Some x -> normalize_rows raw !! i = Some (normalize x).
Proof.
  intros Hx. unfold normalize_rows.
  change (map normalize raw) with (normalize <$> raw).
  rewrite list_lookup_fmap, Hx. reflexivity.
Qed.

(** C6, as amended.  In each of the three modes the embedding that
    [forward] uses is the output of the identity head normalized row by
    row inside [forward]: it is what the bank is updated with and what the
    identity loss compares with the bank rows when training, and it is what
    a gallery or a query call returns.  Every such row has norm at most
    one, and norm one when the head's output has norm at least [eps]. *)
Theorem embedding_normalized (self : SIPN) (im_data : Tensor4)
  (gt_boxes : Mat) (im_info : Vec) (w : World) :
  (is_train self = true -> forall mode,
     let feat :=
       normalize_rows (train_reid_raw self im_data gt_boxes im_info) in
     let pid := train_pid_label im_data gt_boxes im_info in
     let up := update (lut_momentum self) (bank w) (zip feat pid) in
     bank (forward self im_data gt_boxes im_info mode w).2 = up.1 /\
     (up.2 = None ->
      exists l1 l2 l3 l4,
        (forward self im_data gt_boxes im_info mode w).1 =
        Ok (TrainOut l1 l2 l3 l4
              (identity_cross_entropy (similarity_logits (bank w) feat)
                 pid (length gt_boxes))))) /\
  (is_train self = false -> forall out w',
     forward self im_data gt_boxes im_info "gallery" w = (Ok out, w') ->
     exists cls_prob bbox_pred rois,
       out = GalleryOut cls_prob bbox_pred rois
               (normalize_rows
                  (gallery_reid_raw self im_data gt_boxes im_info))) /\
  (is_train self = false ->
     (forward self im_data gt_boxes im_info "query" w).1 =
     Ok (QueryOut
           (normalize_rows (query_reid_raw self im_data gt_boxes im_info)))) /\
  (forall (raw : Mat) (i : nat) (x : Vec),
     raw !! i = Some x ->
     normalize_rows raw !! i = Some (normalize x) /\
     norm (normalize x) <= 1 /\
     (eps <= norm x -> norm (normalize x) = 1)).
Proof.
  repeat split.
  - rewrite forward_train_run by assumption. reflexivity.
  - intros Hup. rewrite forward_train_run by assumption. cbv zeta.
    unfold train_samples. simpl. rewrite Hup.
    unfold train_losses. eauto.
  - intros Htrain out w'. rewrite forward_gallery_run by exact Htrain.
    intros Hrun. apply gallery_finish_reid in Hrun as [bbox_pred ->]. eauto.
  - intros Htrain. rewrite forward_query_run by exact Htrain. reflexivity.
  - apply normalize_rows_lookup. assumption.
  - apply norm_normalize_le_1.
  - apply norm_normalize_unit.
Qed.

Lemma denormalize_row_id (row : Vec) :
  vadd (vmul row (replicate (length row) 1)) (replicate (length row) 0) = row.
Proof.
  unfold vadd, vmul. induction row as [|x row IH]; [reflexivity|].
  simpl. rewrite IH. f_equal. ring.
Qed.

(** C8.  A gallery call returns each row of the box head's output
    multiplied coordinate by coordinate by the configured standard
    deviations and increased by the configured means, both repeated for
    the two classes; with means [0,0,0,0] and standard deviations
    [1,1,1,1] that is the head's output itself. *)
Theorem box_denormalization (self : SIPN) (im_data : Tensor4) (gt_boxes : Mat)
  (im_info : Vec) (w : World) (config : Config) (mean std : Vec) :
  is_train self = false ->
  config_yml w = Some config ->
  assoc "train_bbox_normalize_means" config = Some mean ->
  assoc "train_bbox_normalize_stds" config = Some std ->
  Forall (fun row => length row = length (mean ++ mean)%list)
    (gallery_bbox_raw self im_data gt_boxes im_info) ->
  Forall (fun row => length row = length (std ++ std)%list)
    (gallery_bbox_raw self im_data gt_boxes im_info) ->
  (forward self im_data gt_boxes im_info "gallery" w).1 =
    Ok (GalleryOut
          (gallery_cls_prob self im_data gt_boxes im_info)
          (map (denormalize_row mean std)
             (gallery_bbox_raw self im_data gt_boxes im_info))
          (gallery_rois im_data gt_boxes im_info)
          (normalize_rows (gallery_reid_raw self im_data gt_boxes im_info))) /\
  (mean = [0; 0; 0; 0] -> std = [1; 1; 1; 1] ->
   map (denormalize_row mean std)
     (gallery_bbox_raw self im_data gt_boxes im_info) =
   gallery_bbox_raw self im_data gt_boxes im_info).
Proof.
  intros Htrain Hconfig Hmean Hstd Hwm Hws. split.
  - rewrite forward_gallery_run by exact Htrain. unfold gallery_finish.
    simpl. rewrite Hconfig, Hmean, Hstd.
    rewrite !expand_as_ok by assumption. simpl.
    rewrite mul_add_expand. reflexivity.
  - intros -> ->. clear Hws.
    induction Hwm as [|row raw Hrow _ IH]; [reflexivity|].
    simpl. rewrite IH. f_equal. unfold denormalize_row.
    change ([1; 1; 1; 1] ++ [1; 1; 1; 1])%list with (replicate 8 1).
    change ([0; 0; 0; 0] ++ [0; 0; 0; 0])%list with (replicate 8 0).
    simpl length in Hrow. rewrite <- Hrow. apply denormalize_row_id.
Qed.

Lemma no_open_in_train_log : "open config.yml" ∉ train_log.
Proof.
  unfold train_log. rewrite !not_elem_of_cons.
  repeat split; try discriminate. apply not_elem_of_nil.
Qed.

Lemma no_open_in_query_log : "open config.yml" ∉ query_log.
Proof.
  unfold query_log. rewrite !not_elem_of_cons.
  repeat split; try discriminate. apply not_elem_of_nil.
Qed.

(** C9.  A gallery call on a model that is not in training mode opens the
    configuration during the call and fails when it is missing.  A
    training call and an inference call in any other mode never open it:
    their result, the bank and the log are the same whatever the
    configuration is, missing or not. *)
Theorem config_only_gallery (self : SIPN) (im_data : Tensor4) (gt_boxes : Mat)
  (im_info : Vec) (mode : string) (w : World) :
  (is_train self = false ->
     ("open config.yml" ∈
        new_log w (forward self im_data gt_boxes im_info "gallery" w).2) /\
     (config_yml w = None ->
      (forward self im_data gt_boxes im_info "gallery" w).1 =
      Raise (IOError "config.yml"))) /\
  (is_train self = true \/ mode <> "gallery" ->
     ("open config.yml" ∉
        new_log w (forward self im_data gt_boxes im_info mode w).2) /\
     forall c : option Config,
       forward self im_data gt_boxes im_info mode (with_config w c) =
       ((forward self im_data gt_boxes im_info mode w).1,
        with_config (forward self im_data gt_boxes im_info mode w).2 c)).
Proof.
  split.
  - intros Htrain. split.
    + rewrite forward_inference_world by exact Htrain.
      unfold new_log. simpl. rewrite drop_app_length.
      unfold gallery_log. rewrite !elem_of_cons. auto 10.
    + intros Hnone. rewrite forward_gallery_run by exact Htrain.
      unfold gallery_finish. simpl. rewrite Hnone. reflexivity.
  - intros Hmode. destruct (is_train self) eqn:Htrain.
    + split.
      * rewrite forward_train_run by exact Htrain.
        unfold new_log. simpl. rewrite drop_app_length.
        apply no_open_in_train_log.
      * intros c. rewrite !forward_train_run by exact Htrain. reflexivity.
    + destruct Hmode as [Hmode|Hg]; [discriminate|].
      destruct (String.eqb_spec mode "query") as [->|Hq].
      * split.
        -- rewrite forward_query_run by exact Htrain.
           unfold new_log. simpl. rewrite drop_app_length.
           apply no_open_in_query_log.
        -- intros c. rewrite !forward_query_run by exact Htrain. reflexivity.
      * split.
        -- rewrite forward_bad_mode_run by assumption.
           unfold new_log. rewrite drop_all. apply not_elem_of_nil.
        -- intros c. rewrite !forward_bad_mode_run by assumption. reflexivity.
Qed.

End ForwardClaims.

(** ** The claims on the small instance *)

#[local] Existing Instance toy_backbone.
#[local] Existing Instance toy_proposal.
#[local] Existing Instance toy_losses.

Lemma bank_frame_witness :
  is_train (toy_model false 1) = false /\
  bank (forward (toy_model false 1) toy_image toy_boxes [] "gallery"
          (toy_world (Some toy_config))).2 = toy_bank.
Proof.
  split; [reflexivity|].
  exact (proj2 (proj2 bank_frame) (toy_model false 1) toy_image toy_boxes []
           "gallery" (toy_world (Some toy_config)) eq_refl).
Defined.

Lemma five_losses_witness :
  is_train (toy_model true 1) = true /\
  (forward (toy_model true 1) toy_image toy_boxes [] "gallery"
     (toy_world None)).1 = Ok (TrainOut 1 2 3 4 5).
Proof.
  split; [reflexivity|].
  exact (proj2 (five_losses (toy_model true 1) toy_image toy_boxes []
                  "gallery" (toy_world None) eq_refl) eq_refl).
Defined.

Lemma invalid_mode_fatal_witness :
  is_train (toy_model false 1) = false /\
  forward (toy_model false 1) toy_image toy_boxes [] "banana"
    (toy_world None) =
  (Raise (KeyError "banana"), toy_world None).
Proof.
  split; [reflexivity|].
  refine (proj1 (invalid_mode_fatal (toy_model false 1) toy_image toy_boxes []
                   "banana" (toy_world None) eq_refl _ _)); discriminate.
Defined.

Lemma train_ignores_mode_witness :
  is_train (toy_model true 1) = true /\
  forward (toy_model true 1) toy_image toy_boxes [] "banana"
    (toy_world None) =
  forward (toy_model true 1) toy_image toy_boxes [] "gallery"
    (toy_world None).
Proof.
  split; [reflexivity|].
  exact (proj1 (train_ignores_mode (toy_model true 1) toy_image toy_boxes []
                  "banana" (toy_world None) eq_refl)).
Defined.

Lemma embedding_normalized_witness :
  is_train (toy_model false 1) = false /\
  (forward (toy_model false 1) toy_image toy_boxes [] "query"
     (toy_world None)).1 =
  Ok (QueryOut
        (normalize_rows
           (query_reid_raw (toy_model false 1) toy_image toy_boxes []))).
Proof.
  split; [reflexivity|].
  exact (proj1 (proj2 (proj2
           (embedding_normalized (toy_model false 1) toy_image toy_boxes []
              (toy_world None)))) eq_refl).
Defined.

Lemma box_denormalization_witness :
  config_yml (toy_world (Some toy_config)) = Some toy_config /\
  assoc "train_bbox_normalize_means" toy_config = Some [0; 0; 0; 0] /\
  assoc "train_bbox_normalize_stds" toy_config = Some [1; 1; 1; 1] /\
  map (denormalize_row [0; 0; 0; 0] [1; 1; 1; 1])
    (gallery_bbox_raw (toy_model false 1) toy_image toy_boxes []) =
  gallery_bbox_raw (toy_model false 1) toy_image toy_boxes [].
Proof.
  repeat (split; [reflexivity|]).
  refine (proj2 (box_denormalization (toy_model false 1) toy_image toy_boxes
                   [] (toy_world (Some toy_config)) toy_config
                   [0; 0; 0; 0] [1; 1; 1; 1]
                   eq_refl eq_refl eq_refl eq_refl _ _) eq_refl eq_refl);
    repeat constructor.
Defined.

Lemma config_only_gallery_witness :
  (forward (toy_model false 1) toy_image toy_boxes [] "gallery"
     (toy_world None)).1 = Raise (IOError "config.yml") /\
  forall c : option Config,
    forward (toy_model false 1) toy_image toy_boxes [] "query"
      (with_config (toy_world None) c) =
    ((forward (toy_model false 1) toy_image toy_boxes [] "query"
        (toy_world None)).1,
     with_config
       (forward (toy_model false 1) toy_image toy_boxes [] "query"
          (toy_world None)).2 c).
Proof.
  split.
  - exact (proj2 (proj1 (config_only_gallery (toy_model false 1) toy_image
                           toy_boxes [] "query" (toy_world None)) eq_refl)
             eq_refl).
  - refine (proj2 (proj2 (config_only_gallery (toy_model false 1) toy_image
                            toy_boxes [] "query" (toy_world None))
                     (or_intror _))).
    discriminate.
Defined.

(** C6, as stated, fails: a query call whose identity head gives the
    nonzero row [[1e-13]] returns the row [[1e-13 / eps]], of norm [1/10]. *)
Lemma tiny_embedding_not_unit :
  exists x y : Vec,
    query_reid_raw (toy_model false (/ 10 ^ 13)) toy_image toy_boxes [] = [x] /\
    norm x <> 0 /\
    (forward (toy_model false (/ 10 ^ 13)) toy_image toy_boxes [] "query"
       (toy_world None)).1 = Ok (QueryOut [y]) /\
    norm y <> 1.
Proof.
  assert (0 < / 10 ^ 13) as Hpos by (apply Rinv_0_lt_compat; lra).
  assert (query_reid_raw (toy_model false (/ 10 ^ 13)) toy_image toy_boxes []
          = [[/ 10 ^ 13]]) as Hraw.
  { unfold query_reid_raw, fc7_of, linear, linear_row, dot, vmul, vadd, rsum.
    simpl. do 2 f_equal. ring. }
  assert (norm [/ 10 ^ 13] = / 10 ^ 13) as Hnorm
    by (apply norm_singleton; lra).
  exists [/ 10 ^ 13], (normalize [/ 10 ^ 13]). repeat split.
  - exact Hraw.
  - rewrite Hnorm. lra.
  - rewrite forward_query_run by reflexivity. cbn [fst].
    rewrite Hraw. reflexivity.
  - rewrite norm_normalize_small; rewrite Hnorm; unfold eps.
    + intros Heq. apply (f_equal (fun r => r * / 10 ^ 12)) in Heq.
      unfold Rdiv in Heq. rewrite Rmult_assoc, Rinv_l in Heq; lra.
    + apply Rlt_le, Rinv_lt_contravar; lra.
Qed.

(** ** Construction *)








(** ** Class probabilities *)

Lemma rsum_map_div (f : R -> R) (c : R) (v : Vec) :
  rsum (map (fun x => f x / c) v) = rsum (map f v) / c.
Proof.
  induction v as [|x v IH]; simpl.
  - unfold Rdiv. rewrite Rmult_0_l. reflexivity.
  - rewrite IH. unfold Rdiv. ring.
Qed.

Lemma rsum_exp_nonneg (v : Vec) : 0 <= rsum (map exp v).
Proof.
  induction v as [|x v IH]; simpl; [lra|].
  pose proof (exp_pos x). lra.
Qed.

Lemma rsum_exp_pos (v : Vec) : v <> [] -> 0 < rsum (map exp v).
Proof.
  destruct v as [|x v]; [congruence|]. intros _. simpl.
  pose proof (exp_pos x). pose proof (rsum_exp_nonneg v). lra.
Qed.

Lemma exp_le_rsum (v : Vec) (x : R) : x ∈ v -> exp x <= rsum (map exp v).
Proof.
  induction v as [|y v IH]; intros Hx.
  - apply elem_of_nil in Hx. contradiction.
  - simpl. apply elem_of_cons in Hx as [->|Hx].
    + pose proof (rsum_exp_nonneg v). lra.
    + pose proof (exp_pos y). specialize (IH Hx). lra.
Qed.

(** A nonempty row of [softmax] is a probability distribution. *)
Lemma softmax_row_distribution (v : Vec) :
  v <> [] ->
  rsum (softmax_row v) = 1 /\ Forall (fun p => 0 < p <= 1) (softmax_row v).
Proof.
  intros Hv. pose proof (rsum_exp_pos v Hv) as Hpos. unfold softmax_row. split.
  - rewrite (rsum_map_div exp). field. lra.
  - apply Forall_forall. intros p Hp.
    apply list_elem_of_fmap in Hp as (x & -> & Hx).
    pose proof (exp_pos x). pose proof (exp_le_rsum v x Hx). split.
    + apply Rdiv_lt_0_compat; assumption.
    + apply Rmult_le_reg_r with (rsum (map exp v)); [exact Hpos|].
      unfold Rdiv. rewrite Rmult_assoc, Rinv_l by lra. lra.
Qed.

Lemma expand_as_inv (row : Vec) (m expanded : Mat) :
  expand_as row m = Ok expanded ->
  Forall (fun r => length r = length row) m /\
  expanded = map (fun _ => row) m.
Proof.
  unfold expand_as.
  destruct (forallb _ m) eqn:Hall; [|discriminate]. intros [= <-].
  split; [|reflexivity]. apply Forall_forall. intros r Hr.
  apply Nat.eqb_eq. rewrite forallb_forall in Hall.
  apply Hall, list_elem_of_In, Hr.
Qed.

Lemma expand_as_shape (row : Vec) (m : Mat) :
  ~ Forall (fun r => length r = length row) m ->
  expand_as row m = Raise ShapeError.
Proof.
  intros Hbad. destruct (expand_as row m) as [expanded|err] eqn:Hexp.
  - apply expand_as_inv in Hexp as [Hall _]. contradiction.
  - unfold expand_as in Hexp. destruct (forallb _ m); congruence.
Qed.

(** When the last part of a gallery call succeeds, and what it returns. *)
Lemma gallery_finish_ok (cls_prob raw rois reid_feat : Mat) (w w' : World)
  (out : Output) :
  gallery_finish cls_prob raw rois reid_feat w = (Ok out, w') <->
  exists config mean std,
    config_yml w = Some config /\
    assoc "train_bbox_normalize_means" config = Some mean /\
    assoc "train_bbox_normalize_stds" config = Some std /\
    Forall (fun row => length row = length (mean ++ mean)%list) raw /\
    Forall (fun row => length row = length (std ++ std)%list) raw /\
    out = GalleryOut cls_prob (map (denormalize_row mean std) raw)
            rois reid_feat /\
    w' = w.
Proof.
  unfold gallery_finish. split.
  - destruct (config_yml w) as [config|]; [|discriminate].
    destruct (assoc "train_bbox_normalize_means" config) as [mean|] eqn:Hmean;
      [|discriminate].
    destruct (assoc "train_bbox_normalize_stds" config) as [std|] eqn:Hstd;
      [|discriminate].
    destruct (expand_as (mean ++ mean) raw) as [means|] eqn:Hm;
      [|discriminate].
    destruct (expand_as (std ++ std) raw) as [stds|] eqn:Hs; [|discriminate].
    apply expand_as_inv in Hm as [Hwm ->], Hs as [Hws ->].
    intros [= <- <-]. exists config, mean, std.
    rewrite mul_add_expand. unfold denormalize_row.
    repeat (split; [assumption || reflexivity|]). reflexivity.
  - intros (config & mean & std & -> & -> & -> & Hwm & Hws & -> & ->).
    assert (expand_as (mean ++ mean)%list raw =
            Ok (map (fun _ => (mean ++ mean)%list) raw)) as ->.
    { unfold expand_as. rewrite (proj2 (forallb_forall _ raw)); [reflexivity|].
      intros r Hr. apply Nat.eqb_eq. rewrite Forall_forall in Hwm.
      apply Hwm, list_elem_of_In, Hr. }
    assert (expand_as (std ++ std)%list raw =
            Ok (map (fun _ => (std ++ std)%list) raw)) as ->.
    { unfold expand_as. rewrite (proj2 (forallb_forall _ raw)); [reflexivity|].
      intros r Hr. apply Nat.eqb_eq. rewrite Forall_forall in Hws.
      apply Hws, list_elem_of_In, Hr. }
    rewrite mul_add_expand. reflexivity.
Qed.

(** ** The bank invariant *)

Lemma length_normalize (v : Vec) : length (normalize v) = length v.
Proof. unfold normalize. apply length_map. Qed.

Lemma length_blend (m : R) (row e : Vec) :
  length e = length row -> length (blend m row e) = length row.
Proof.
  intros He. unfold blend, vadd, vscale.
  rewrite length_zip_with, !length_map. lia.
Qed.

Lemma update_one_inv (m : R) (D : nat) (b b' : Bank) (e : Vec) (l : Label) :
  bank_inv D b -> norm e <= 1 -> update_one m b (e, l) = Ok b' ->
  bank_inv D b' /\
  num_identities b' = num_identities b /\
  bank_queue_size b' = bank_queue_size b.
Proof.
  intros (Hlut & Hqueue & Hc) He. unfold update_one. cbv beta iota.
  destruct l as [|i|].
  - intros [= <-]. repeat split; assumption.
  - destruct (lut b !! i) as [row|] eqn:Hi; [|discriminate].
    destruct (Nat.eqb_spec (length e) (length row)) as [Hlen|]; [|discriminate].
    intros [= <-]. unfold bank_inv, num_identities, bank_queue_size.
    cbn [lut queue cursor]. rewrite length_insert.
    repeat split; try assumption. apply Forall_insert; [exact Hlut|].
    rewrite Forall_lookup in Hlut. destruct (Hlut _ _ Hi) as [Hrow _]. split.
    + rewrite length_normalize, length_blend by exact Hlen. exact Hrow.
    + apply norm_normalize_le_1.
  - destruct (queue b !! cursor b) as [slot|] eqn:Hslot; [|discriminate].
    destruct (Nat.eqb_spec (length e) (length slot)) as [Hlen|]; [|discriminate].
    intros [= <-]. unfold bank_inv, num_identities, bank_queue_size.
    cbn [lut queue cursor]. rewrite length_insert.
    repeat split; try assumption.
    + apply Forall_insert; [exact Hqueue|].
      rewrite Forall_lookup in Hqueue. destruct (Hqueue _ _ Hslot) as [Hrow _].
      split; [congruence | exact He].
    + apply Nat.mod_upper_bound. lia.
Qed.

Lemma update_inv (m : R) (D : nat) (batch : list (Vec * Label)) (b : Bank) :
  bank_inv D b -> Forall (fun s => norm s.1 <= 1) batch ->
  bank_inv D (update m b batch).1 /\
  num_identities (update m b batch).1 = num_identities b /\
  bank_queue_size (update m b batch).1 = bank_queue_size b.
Proof.
  revert b. induction batch as [|[e l] rest IH]; intros b Hinv Hbatch.
  - split; [exact Hinv | split; reflexivity].
  - apply Forall_cons in Hbatch as [He Hrest]. cbn [update].
    destruct (update_one m b (e, l)) as [b'|err] eqn:Hone.
    + destruct (update_one_inv m D b b' e l Hinv He Hone) as (Hinv' & Hn & Hq).
      rewrite <- Hn, <- Hq. apply IH; assumption.
    + split; [exact Hinv | split; reflexivity].
Qed.

Section ForwardExtras.

Context `{Backbone} `{Losses}.

(** X4.  A training call keeps the bank invariant, whether it returns or
    raises: both buffers keep their numbers of rows and the dimension of
    their rows, no row becomes longer than one, and the cursor stays
    inside the queue. *)
Theorem training_keeps_bank_inv (self : SIPN) (im_data : Tensor4)
  (gt_boxes : Mat) (im_info : Vec) (mode : string) (w : World) (D : nat) :
  is_train self = true -> bank_inv D (bank w) ->
  let b' := bank (forward self im_data gt_boxes im_info mode w).2 in
  bank_inv D b' /\
  num_identities b' = num_identities (bank w) /\
  bank_queue_size b' = bank_queue_size (bank w).
Proof.
  intros Htrain Hinv. rewrite forward_train_run by exact Htrain.
  cbv zeta. cbn [snd bank]. apply update_inv; [exact Hinv|].
  unfold train_samples. apply Forall_forall. intros [e l] Hs.
  apply elem_of_zip_l in Hs. unfold normalize_rows in Hs.
  apply list_elem_of_fmap in Hs as (x & -> & _). apply norm_normalize_le_1.
Qed.

(** X5.  In a gallery call that returns, every nonempty row of the class
    probabilities sums to one and has its entries in (0, 1]. *)
Theorem gallery_cls_prob_distribution (self : SIPN) (im_data : Tensor4)
  (gt_boxes : Mat) (im_info : Vec) (w w' : World)
  (cls_prob bbox_pred rois reid_feat : Mat) :
  is_train self = false ->
  forward self im_data gt_boxes im_info "gallery" w =
    (Ok (GalleryOut cls_prob bbox_pred rois reid_feat), w') ->
  Forall (fun row => row <> [] ->
            rsum row = 1 /\ Forall (fun p => 0 < p <= 1) row) cls_prob.
Proof.
  intros Htrain. rewrite forward_gallery_run by exact Htrain. intros Hrun.
  apply gallery_finish_reid in Hrun as [bp [= -> _ _ _]].
  unfold gallery_cls_prob, softmax. apply Forall_forall. intros row Hrow.
  apply list_elem_of_fmap in Hrow as (v & -> & _). intros Hne.
  apply softmax_row_distribution. intros ->. apply Hne. reflexivity.
Qed.

Lemma length_denormalize_row (mean std row : Vec) :
  length row = length (mean ++ mean)%list ->
  length row = length (std ++ std)%list ->
  length (denormalize_row mean std row) = length row.
Proof.
  intros Hm Hs. unfold denormalize_row, vadd, vmul.
  rewrite !length_zip_with. lia.
Qed.

(** X6.  In a gallery call that returns, the class probabilities, the box
    predictions and the embeddings have one row per row of the task
    descriptor, the box predictions have the widths of the box head's
    rows, and the regions are those of the proposal subsystem. *)
Theorem gallery_rows_aligned (self : SIPN) (im_data : Tensor4)
  (gt_boxes : Mat) (im_info : Vec) (w w' : World)
  (cls_prob bbox_pred rois reid_feat : Mat) :
  is_train self = false ->
  forward self im_data gt_boxes im_info "gallery" w =
    (Ok (GalleryOut cls_prob bbox_pred rois reid_feat), w') ->
  let n := length (fc7_of self (gallery_pooled im_data gt_boxes im_info)) in
  length cls_prob = n /\ length bbox_pred = n /\ length reid_feat = n /\
  map length bbox_pred =
    map length (gallery_bbox_raw self im_data gt_boxes im_info) /\
  rois = gallery_rois im_data gt_boxes im_info.
Proof.
  intros Htrain. rewrite forward_gallery_run by exact Htrain. intros Hrun n.
  apply gallery_finish_ok in Hrun
    as (config & mean & std & Hc & Hm & Hs & Hwm & Hws & [= -> -> -> ->] & _).
  split; [|split; [|split; [|split]]].
  - unfold gallery_cls_prob, softmax, linear. rewrite !length_map. reflexivity.
  - unfold gallery_bbox_raw, linear. rewrite !length_map. reflexivity.
  - unfold gallery_reid_raw, normalize_rows, linear. rewrite !length_map.
    reflexivity.
  - induction Hwm as [|row raw Hrow Hraw IH]; [reflexivity|].
    apply Forall_cons in Hws as [Hrow' Hraw']. simpl.
    rewrite length_denormalize_row by assumption. f_equal. apply IH, Hraw'.
  - reflexivity.
Qed.

(** X7.  A gallery call returns only if the configuration could be read,
    holds both normalization keys, and the means and the standard
    deviations, each taken twice, are as wide as every row of the box
    head's output. *)
Theorem gallery_returns_only_if (self : SIPN) (im_data : Tensor4)
  (gt_boxes : Mat) (im_info : Vec) (w w' : World) (out : Output) :
  is_train self = false ->
  forward self im_data gt_boxes im_info "gallery" w = (Ok out, w') ->
  exists config mean std,
    config_yml w = Some config /\
    assoc "train_bbox_normalize_means" config = Some mean /\
    assoc "train_bbox_normalize_stds" config = Some std /\
    Forall (fun row => length row = (2 * length mean)%nat)
      (gallery_bbox_raw self im_data gt_boxes im_info) /\
    Forall (fun row => length row = (2 * length std)%nat)
      (gallery_bbox_raw self im_data gt_boxes im_info).
Proof.
  intros Htrain. rewrite forward_gallery_run by exact Htrain. intros Hrun.
  assert (forall v : Vec, length (v ++ v)%list = (2 * length v)%nat) as Htwice
    by (intros v; rewrite length_app; lia).
  apply gallery_finish_ok in Hrun
    as (config & mean & std & Hc & Hm & Hs & Hwm & Hws & _).
  exists config, mean, std. rewrite <- !Htwice. auto.
Qed.

(** X8.  How a gallery call fails once the configuration has been read:
    the means are looked up before the standard deviations, so a missing
    means key is the one reported when both are missing; a width that does
    not match the box head is a shape error, the means being checked
    first.  Every failure comes after the network has run, and leaves the
    bank as it was. *)
Theorem gallery_failure_order (self : SIPN) (im_data : Tensor4)
  (gt_boxes : Mat) (im_info : Vec) (w : World) (config : Config) :
  is_train self = false -> config_yml w = Some config ->
  let run := forward self im_data gt_boxes im_info "gallery" w in
  let raw := gallery_bbox_raw self im_data gt_boxes im_info in
  run.2 = mkWorld (bank w) (config_yml w) (log w ++ gallery_log) /\
  (assoc "train_bbox_normalize_means" config = None ->
   run.1 = Raise (KeyError "train_bbox_normalize_means")) /\
  (forall mean,
     assoc "train_bbox_normalize_means" config = Some mean ->
     assoc "train_bbox_normalize_stds" config = None ->
     run.1 = Raise (KeyError "train_bbox_normalize_stds")) /\
  (forall mean std,
     assoc "train_bbox_normalize_means" config = Some mean ->
     assoc "train_bbox_normalize_stds" config = Some std ->
     ~ Forall (fun row => length row = length (mean ++ mean)%list) raw \/
     ~ Forall (fun row => length row = length (std ++ std)%list) raw ->
     run.1 = Raise ShapeError).
Proof.
  intros Htrain Hc run raw. subst run raw.
  rewrite forward_gallery_run by exact Htrain.
  split; [apply gallery_finish_world|].
  unfold gallery_finish. cbn [config_yml]. rewrite Hc.
  split; [|split].
  - intros ->. reflexivity.
  - intros mean -> ->. reflexivity.
  - intros mean std -> -> Hbad.
    destruct (expand_as (mean ++ mean) _) as [means|err] eqn:Hm.
    + destruct Hbad as [Hbad|Hbad].
      * apply expand_as_inv in Hm as [Hall _]. contradiction.
      * rewrite (expand_as_shape _ _ Hbad). reflexivity.
    + unfold expand_as in Hm. destruct (forallb _ _); [discriminate|].
      injection Hm as <-. reflexivity.
Qed.

(** X9.  For one backbone and one proposal subsystem, a query call
    depends on the model through the backbone name and the identity head
    only: two models that are not in training mode, use that backbone and
    that proposal subsystem and agree on the backbone name and the identity
    head return the same embeddings, one per row of the task descriptor,
    whatever their other heads, the bank and the configuration are. *)
Theorem query_identity_head_only (self self' : SIPN) (im_data : Tensor4)
  (gt_boxes : Mat) (im_info : Vec) (w w' : World) :
  is_train self = false -> is_train self' = false ->
  net_name self = net_name self' ->
  reid_feat_net self = reid_feat_net self' ->
  (forward self im_data gt_boxes im_info "query" w).1 =
    (forward self' im_data gt_boxes im_info "query" w').1 /\
  exists reid_feat,
    (forward self im_data gt_boxes im_info "query" w).1 =
      Ok (QueryOut reid_feat) /\
    length reid_feat =
      length (fc7_of self
                (strpn_query (head im_data) gt_boxes im_info "query")).
Proof.
  intros Htrain Htrain' Hnet Hreid.
  rewrite !forward_query_run by assumption. cbn [fst]. split.
  - unfold query_reid_raw, fc7_of. rewrite Hnet, Hreid. reflexivity.
  - eexists. split; [reflexivity|].
    unfold query_reid_raw, normalize_rows, linear. rewrite !length_map.
    reflexivity.
Qed.

End ForwardExtras.

(** ** Reshaping *)

(** X11.  [view(-1, 2)] leaves a matrix of two columns as it is, which is
    what the classification loss is given when the classification head has
    two output units. *)
Theorem view_pairs_two_columns (m : Mat) :
  Forall (fun row => length row = 2%nat) m -> view_pairs m = m.
Proof.
  unfold view_pairs. induction 1 as [|row rest Hrow _ IH]; [reflexivity|].
  destruct row as [|x [|y [|z row]]]; try discriminate.
  simpl. rewrite IH. reflexivity.
Qed.

Lemma view_pairs_two_columns_witness :
  Forall (fun row : Vec => length row = 2%nat) [[1; 2]; [3; 4]] /\
  view_pairs [[1; 2]; [3; 4]] = [[1; 2]; [3; 4]].
Proof.
  assert (Forall (fun row : Vec => length row = 2%nat) [[1; 2]; [3; 4]])
    as Hrows by (repeat constructor).
  split; [exact Hrows | exact (view_pairs_two_columns _ Hrows)].
Defined.

Lemma mean_singleton (x : R) : mean [x] = x.
Proof. unfold mean, rsum. simpl. field. Qed.

(** X12.  On pooled features of spatial size one by one, averaging over
    the two spatial dimensions and flattening give the same matrix: the two
    backbone branches of [forward] then hand the same numbers on. *)
Theorem mean_3_2_flat (t : Tensor4) :
  Forall (Forall (fun plane : Mat => exists x, plane = [[x]])) t ->
  mean_3_2 t = view_flat t.
Proof.
  unfold mean_3_2, view_flat. induction 1 as [|sample rest Hs _ IH];
    [reflexivity|].
  simpl. rewrite IH. f_equal. clear IH.
  induction Hs as [|plane planes [x ->] _ IHp]; [reflexivity|].
  simpl. rewrite IHp. f_equal. simpl. rewrite !mean_singleton. reflexivity.
Qed.

Lemma mean_3_2_flat_witness :
  mean_3_2 [[[[1]]; [[2]]]; [[[3]]; [[4]]]] =
  view_flat [[[[1]]; [[2]]]; [[[3]]; [[4]]]].
Proof.
  apply mean_3_2_flat. repeat constructor; eexists; reflexivity.
Defined.

(** ** Weight initialization *)

Lemma vadd_zeros (v : Vec) : vadd v (zeros (length v)) = v.
Proof.
  unfold vadd, zeros. induction v as [|x v IH]; [reflexivity|].
  simpl. rewrite IH, Rplus_0_r. reflexivity.
Qed.

(** X13.  The heads of a model that [__init__] returns have a zero bias:
    each maps a descriptor row to its inner products with the weight rows
    drawn, and nothing is added. *)
Theorem init_heads_no_offset (net dataset_name : string) (train : bool)
  (w_cls w_bbox w_reid : Mat) (self : SIPN) (b : Bank) (fc7 : Mat) :
  SIPN_init net dataset_name train w_cls w_bbox w_reid = Ok (self, b) ->
  linear (cls_score_net self) fc7 = map (fun x => map (dot x) w_cls) fc7 /\
  linear (bbox_pred_net self) fc7 = map (fun x => map (dot x) w_bbox) fc7 /\
  linear (reid_feat_net self) fc7 = map (fun x => map (dot x) w_reid) fc7.
Proof.
  assert (forall (drawn : Mat) (x : Vec),
            linear_row (normal_init drawn) x = map (dot x) drawn) as Hrow.
  { intros drawn x. unfold linear_row, normal_init. cbn [weight bias].
    rewrite <- (length_map (dot x) drawn). apply vadd_zeros. }
  unfold SIPN_init.
  destruct (dataset_sizes dataset_name) as [[pids qsize]|err]; [|discriminate].
  destruct (known_net net); [|discriminate]. intros [= <- _].
  cbn [cls_score_net bbox_pred_net reid_feat_net]. unfold linear.
  repeat split; apply map_ext; intros x; apply Hrow.
Qed.

Lemma init_heads_no_offset_witness :
  exists self b,
    SIPN_init "res50" "sysu" true [[1]; [2]] [] [] = Ok (self, b) /\
    linear (cls_score_net self) [[3]] = [[dot [3] [1]; dot [3] [2]]].
Proof.
  eexists _, _. split; [reflexivity|].
  exact (proj1 (init_heads_no_offset "res50" "sysu" true [[1]; [2]] [] []
                  _ _ [[3]] eq_refl)).
Defined.

Lemma Rtrunc_nonneg (x : R) :
  0 <= x -> IZR (Rtrunc x) <= x < IZR (Rtrunc x) + 1.
Proof.
  intros Hx. unfold Rtrunc. destruct (Rle_dec 0 x); [|contradiction].
  destruct (base_Int_part x). lra.
Qed.

Lemma Rtrunc_neg (x : R) :
  x < 0 -> IZR (Rtrunc x) - 1 < x <= IZR (Rtrunc x).
Proof.
  intros Hx. unfold Rtrunc. destruct (Rle_dec 0 x); [lra|].
  rewrite opp_IZR. destruct (base_Int_part (- x)). lra.
Qed.

(** [fmod x 2] is shorter than two and has the sign of [x]. *)
Lemma fmod_2_bounds (x : R) :
  (0 <= x -> 0 <= fmod x 2 < 2) /\ (x < 0 -> -2 < fmod x 2 <= 0).
Proof.
  unfold fmod. split; intros Hx.
  - destruct (Rtrunc_nonneg (x / 2)) as [Hlo Hhi]; lra.
  - destruct (Rtrunc_neg (x / 2)) as [Hlo Hhi]; lra.
Qed.

(** X14.  The truncated initialization keeps every weight strictly within
    two standard deviations of the mean, on the side of the mean that the
    sign of the draw gives, and zeroes the bias. *)
Theorem truncated_init_bounds (mean stddev : R) (drawn : Mat) :
  0 < stddev ->
  Forall (Forall (fun wt => mean - 2 * stddev < wt < mean + 2 * stddev))
    (weight (normal_init_truncated mean stddev drawn)) /\
  (forall z, (0 <= z -> mean <= truncated_weight mean stddev z) /\
             (z < 0 -> truncated_weight mean stddev z <= mean)) /\
  bias (normal_init_truncated mean stddev drawn) = zeros (length drawn).
Proof.
  intros Hs. split; [|split; [|reflexivity]].
  - cbn [normal_init_truncated weight].
    apply Forall_fmap, Forall_forall. intros row _.
    apply Forall_fmap, Forall_forall. intros z _.
    unfold truncated_weight. cbn.
    destruct (fmod_2_bounds z) as [Hpos Hneg].
    destruct (Rle_lt_dec 0 z) as [Hz|Hz];
      [specialize (Hpos Hz) | specialize (Hneg Hz)]; nra.
  - intros z. unfold truncated_weight.
    destruct (fmod_2_bounds z) as [Hpos Hneg]. split; intros Hz.
    + specialize (Hpos Hz). nra.
    + specialize (Hneg Hz). nra.
Qed.

Lemma truncated_init_bounds_witness :
  Forall (Forall (fun wt => 0 - 2 * (1 / 100) < wt < 0 + 2 * (1 / 100)))
    (weight (normal_init_truncated 0 (1 / 100) [[5; -3]])).
Proof.
  refine (proj1 (truncated_init_bounds 0 (1 / 100) [[5; -3]] _)). lra.
Defined.

(** ** Checkpoints *)

Section CheckpointFacts.

Context {T ModuleState : Type}.
Variable state_keys : ModuleState -> list string.
Variable load_state_dict :
  ModuleState -> gmap string T -> Result unit * ModuleState.

Lemma select_keys_lookup (keys : list string) (sd d : gmap string T) :
  select_keys keys sd = Ok d ->
  forall k, d !! k = if decide (k ∈ keys) then sd !! k else None.
Proof.
  revert d. induction keys as [|k0 rest IH]; intros d; simpl.
  - intros [= <-] k. rewrite lookup_empty.
    destruct (decide (k ∈ [])) as [Hin|_]; [|reflexivity].
    apply elem_of_nil in Hin. contradiction.
  - destruct (sd !! k0) as [v|] eqn:Hk0; [|discriminate].
    destruct (select_keys rest sd) as [d0|err]; [|discriminate].
    intros [= <-] k. specialize (IH d0 eq_refl k).
    destruct (decide (k = k0)) as [->|Hne].
    + rewrite lookup_insert_eq, Hk0.
      destruct (decide (k0 ∈ k0 :: rest)) as [_|Hout]; [reflexivity|].
      exfalso. apply Hout. left.
    + rewrite lookup_insert_ne by congruence. rewrite IH.
      destruct (decide (k ∈ rest)) as [Hin|Hout];
        destruct (decide (k ∈ k0 :: rest)) as [Hin'|Hout']; try reflexivity.
      * exfalso. apply Hout'. right. exact Hin.
      * apply elem_of_cons in Hin' as [?|?]; contradiction.
Qed.

Lemma select_keys_present (keys : list string) (sd : gmap string T) :
  (forall k, k ∈ keys -> is_Some (sd !! k)) ->
  exists d, select_keys keys sd = Ok d.
Proof.
  induction keys as [|k0 rest IH]; intros Hall; simpl; [eauto|].
  destruct (Hall k0) as [v ->]; [left|].
  destruct IH as [d ->]; [|eauto].
  intros k Hk. apply Hall. right. exact Hk.
Qed.

Lemma select_keys_missing (l1 l2 : list string) (k : string)
  (sd : gmap string T) :
  (forall k', k' ∈ l1 -> is_Some (sd !! k')) -> sd !! k = None ->
  select_keys (l1 ++ k :: l2) sd = Raise (KeyError k).
Proof.
  induction l1 as [|k0 rest IH]; intros Hall Hk; simpl.
  - rewrite Hk. reflexivity.
  - destruct (Hall k0) as [v ->]; [left|].
    rewrite IH; [reflexivity| |exact Hk].
    intros k' Hk'. apply Hall. right. exact Hk'.
Qed.

Lemma select_keys_agree (keys : list string) (sd1 sd2 : gmap string T) :
  (forall k, k ∈ keys -> sd1 !! k = sd2 !! k) ->
  select_keys keys sd1 = select_keys keys sd2.
Proof.
  induction keys as [|k0 rest IH]; intros Hagree; simpl; [reflexivity|].
  rewrite (Hagree k0) by left. rewrite IH; [reflexivity|].
  intros k Hk. apply Hagree. right. exact Hk.
Qed.

(** X15.  When the given state dictionary holds every key of the model's
    own state, [load_trained_model] loads the dictionary restricted to
    those keys: they keep their given values and every other entry is
    dropped before [load_state_dict] sees it. *)
Theorem load_restricts_to_own_keys (self : ModuleState)
  (state_dict : gmap string T) :
  (forall k, k ∈ state_keys self -> is_Some (state_dict !! k)) ->
  exists d,
    load_trained_model state_keys load_state_dict self state_dict =
      load_state_dict self d /\
    forall k,
      d !! k = if decide (k ∈ state_keys self) then state_dict !! k else None.
Proof.
  intros Hall. destruct (select_keys_present _ _ Hall) as [d Hd].
  exists d. unfold load_trained_model. rewrite Hd.
  split; [reflexivity | apply select_keys_lookup, Hd].
Qed.

(** X16.  When a key of the model's own state is missing from the given
    dictionary, [load_trained_model] raises [KeyError] of the first such
    key, in the order of the model's state, and the model is not touched:
    nothing is loaded, not even the keys that are present. *)
Theorem load_missing_key (self : ModuleState) (state_dict : gmap string T)
  (before after : list string) (k : string) :
  state_keys self = (before ++ k :: after)%list ->
  (forall k', k' ∈ before -> is_Some (state_dict !! k')) ->
  state_dict !! k = None ->
  load_trained_model state_keys load_state_dict self state_dict =
    (Raise (KeyError k), self).
Proof.
  intros Hkeys Hbefore Hk. unfold load_trained_model.
  rewrite Hkeys, (select_keys_missing _ _ _ _ Hbefore Hk). reflexivity.
Qed.

(** X17.  [load_trained_model] looks at the given dictionary on the
    model's own keys only: two dictionaries that agree there give the same
    result, whatever else they hold. *)
Theorem load_ignores_other_keys (self : ModuleState)
  (sd1 sd2 : gmap string T) :
  (forall k, k ∈ state_keys self -> sd1 !! k = sd2 !! k) ->
  load_trained_model state_keys load_state_dict self sd1 =
  load_trained_model state_keys load_state_dict self sd2.
Proof.
  intros Hagree. unfold load_trained_model.
  rewrite (select_keys_agree _ _ _ Hagree). reflexivity.
Qed.

End CheckpointFacts.

(** ** The further properties on the small instance *)

Lemma training_keeps_bank_inv_witness :
  bank_inv 1 toy_bank /\
  bank_inv 1
    (bank (forward (toy_model true 1) toy_image toy_boxes [] "gallery"
             (toy_world None)).2).
Proof.
  assert (bank_inv 1 toy_bank) as Hinv.
  { assert (norm [0] <= 1) by (rewrite norm_singleton; lra).
    repeat split; try (repeat constructor; fail); simpl; try lia;
      (constructor; [split; [reflexivity | assumption] | constructor]). }
  split; [exact Hinv|].
  exact (proj1 (training_keeps_bank_inv (toy_model true 1) toy_image toy_boxes
                  [] "gallery" (toy_world None) 1 eq_refl Hinv)).
Defined.

Lemma toy_gallery_run :
  forward (toy_model false 1) toy_image toy_boxes [] "gallery"
    (toy_world (Some toy_config)) =
  (Ok (GalleryOut
         (gallery_cls_prob (toy_model false 1) toy_image toy_boxes [])
         (map (denormalize_row [0; 0; 0; 0] [1; 1; 1; 1])
            (gallery_bbox_raw (toy_model false 1) toy_image toy_boxes []))
         (gallery_rois toy_image toy_boxes [])
         (normalize_rows
            (gallery_reid_raw (toy_model false 1) toy_image toy_boxes []))),
   mkWorld toy_bank (Some toy_config) gallery_log).
Proof.
  rewrite forward_gallery_run by reflexivity. apply gallery_finish_ok.
  exists toy_config, [0; 0; 0; 0], [1; 1; 1; 1].
  repeat (split; [reflexivity|]).
  split; [repeat constructor|]. split; [repeat constructor|].
  split; reflexivity.
Qed.

Lemma gallery_cls_prob_distribution_witness :
  Forall (fun row => row <> [] ->
            rsum row = 1 /\ Forall (fun p => 0 < p <= 1) row)
    (gallery_cls_prob (toy_model false 1) toy_image toy_boxes []).
Proof.
  exact (gallery_cls_prob_distribution (toy_model false 1) toy_image toy_boxes
           [] (toy_world (Some toy_config)) _ _ _ _ _ eq_refl
           toy_gallery_run).
Defined.

Lemma gallery_rows_aligned_witness :
  length (gallery_cls_prob (toy_model false 1) toy_image toy_boxes []) =
  length (fc7_of (toy_model false 1) (gallery_pooled toy_image toy_boxes [])).
Proof.
  exact (proj1 (gallery_rows_aligned (toy_model false 1) toy_image toy_boxes
                  [] (toy_world (Some toy_config)) _ _ _ _ _ eq_refl
                  toy_gallery_run)).
Defined.

Lemma gallery_returns_only_if_witness :
  exists config mean std,
    config_yml (toy_world (Some toy_config)) = Some config /\
    assoc "train_bbox_normalize_means" config = Some mean /\
    assoc "train_bbox_normalize_stds" config = Some std /\
    Forall (fun row => length row = (2 * length mean)%nat)
      (gallery_bbox_raw (toy_model false 1) toy_image toy_boxes []) /\
    Forall (fun row => length row = (2 * length std)%nat)
      (gallery_bbox_raw (toy_model false 1) toy_image toy_boxes []).
Proof.
  exact (gallery_returns_only_if (toy_model false 1) toy_image toy_boxes []
           (toy_world (Some toy_config)) _ _ eq_refl toy_gallery_run).
Defined.

Lemma gallery_failure_order_witness :
  (forward (toy_model false 1) toy_image toy_boxes [] "gallery"
     (toy_world (Some []))).1 =
  Raise (KeyError "train_bbox_normalize_means").
Proof.
  exact (proj1 (proj2 (gallery_failure_order (toy_model false 1) toy_image
                         toy_boxes [] (toy_world (Some [])) [] eq_refl
                         eq_refl)) eq_refl).
Defined.

Lemma query_identity_head_only_witness :
  (forward (toy_model false 1) toy_image toy_boxes [] "query"
     (toy_world None)).1 =
  (forward (mkSIPN "vgg16" false 7 7 0 1 (mkLinear [] []) (mkLinear [] [])
              (mkLinear [[1]] [0]))
     toy_image toy_boxes [] "query" (toy_world (Some toy_config))).1.
Proof.
  exact (proj1 (query_identity_head_only (toy_model false 1)
                  (mkSIPN "vgg16" false 7 7 0 1 (mkLinear [] [])
                     (mkLinear [] []) (mkLinear [[1]] [0]))
                  toy_image toy_boxes [] (toy_world None)
                  (toy_world (Some toy_config))
                  eq_refl eq_refl eq_refl eq_refl)).
Defined.

Lemma toy_checkpoint_has_keys (k : string) :
  k ∈ toy_keys toy_state -> is_Some (toy_checkpoint !! k).
Proof.
  unfold toy_keys. rewrite !elem_of_cons.
  intros [->|[->|Hk]]; [eexists; reflexivity..|].
  apply elem_of_nil in Hk. contradiction.
Qed.

Lemma load_restricts_to_own_keys_witness :
  exists d,
    load_trained_model toy_keys toy_load toy_state toy_checkpoint =
      toy_load toy_state d /\
    forall k,
      d !! k = if decide (k ∈ toy_keys toy_state)
               then toy_checkpoint !! k else None.
Proof.
  exact (load_restricts_to_own_keys toy_keys toy_load toy_state toy_checkpoint
           toy_checkpoint_has_keys).
Defined.

Lemma load_missing_key_witness :
  load_trained_model toy_keys toy_load toy_state
    (<["lut" := 3%nat]> (<["optimizer" := 5%nat]> ∅)) =
  (Raise (KeyError "queue"), toy_state).
Proof.
  refine (load_missing_key toy_keys toy_load toy_state
            (<["lut" := 3%nat]> (<["optimizer" := 5%nat]> ∅))
            ["lut"] [] "queue" eq_refl _ _).
  - intros k Hk. apply list_elem_of_singleton in Hk as ->.
    eexists. reflexivity.
  - reflexivity.
Defined.

Lemma load_ignores_other_keys_witness :
  load_trained_model toy_keys toy_load toy_state toy_checkpoint =
  load_trained_model toy_keys toy_load toy_state
    (<["lut" := 3%nat]> (<["queue" := 4%nat]> ∅)).
Proof.
  apply load_ignores_other_keys. unfold toy_keys.
  intros k. rewrite !elem_of_cons.
  intros [->|[->|Hk]]; [reflexivity..|].
  apply elem_of_nil in Hk. contradiction.
Defined.

(** ** Embeddings keep the direction only *)

Lemma sumsq_vscale (c : R) (v : Vec) : sumsq (vscale c v) = c * c * sumsq v.
Proof.
  unfold vscale. induction v as [|x v IH].
  - unfold sumsq. simpl. ring.
  - simpl map. rewrite !sumsq_cons, IH. ring.
Qed.

Lemma norm_vscale (c : R) (v : Vec) : 0 <= c -> norm (vscale c v) = c * norm v.
Proof.
  intros Hc. unfold norm. rewrite sumsq_vscale.
  rewrite sqrt_mult by (try apply sumsq_nonneg; nra).
  rewrite sqrt_square by exact Hc. reflexivity.
Qed.

(** X18.  [func.normalize], as [forward] applies it to the output of the
    identity head, keeps the direction of a row only: as long as the norms
    stay at least [eps], a row and its multiple by a positive factor are
    normalized to the same embedding, and normalizing an embedding again
    changes nothing. *)
Theorem normalize_direction_only (c : R) (v : Vec) :
  0 < c -> eps <= norm v -> eps <= c * norm v ->
  normalize (vscale c v) = normalize v /\
  normalize (normalize v) = normalize v.
Proof.
  intros Hc Hv Hcv. pose proof eps_pos as He. split.
  - unfold normalize. rewrite norm_vscale by lra.
    rewrite !Rmax_left by assumption. unfold vscale. rewrite map_map.
    apply map_ext. intros x. field. split; lra.
  - apply normalize_unit, norm_normalize_unit, Hv.
Qed.

Lemma normalize_direction_only_witness :
  normalize (vscale 2 [1]) = normalize [1] /\
  normalize (normalize [1]) = normalize [1].
Proof.
  assert (norm [1] = 1) as Hn by (apply norm_singleton; lra).
  pose proof eps_lt_1 as He.
  refine (normalize_direction_only 2 [1] _ _ _); rewrite ?Hn; lra.
Defined.
